(** * WGSL front-end orchestration (Source/WebGPU/WGSL/WGSL.cpp)

    A shallow embedding of [staticCheck], [prepareImpl], the two [prepare]
    overloads and [evaluate], together with the three macros [CHECK_PASS],
    [RUN_PASS] and [RUN_PASS_WITH_RESULT] that drive the passes.

    The passes themselves (parser, type checker, rewriters, ...) live in
    other translation units; they enter as the fields of the class
    [Passes].  C++ statements are computations in a state monad with early
    [return] and assertion failure; objects handed to a pass by non-const
    reference are threaded through it explicitly. *)

From stdpp Require Import base strings gmap list.

Local Open Scope string_scope.
Set Warnings "-clear-no-such-hyp".

(** ** Statements: state, early return, assertion failure *)

Module Exec.

(** How a statement hands control on. *)
Inductive Flow (R A : Type) : Type :=
| Next (a : A)      (* falls through with value [a] *)
| Return (r : R)    (* [return r;] leaves the enclosing function *)
| Abort.            (* a failed assertion stops the process *)
Arguments Next {R A} a.
Arguments Return {R A} r.
Arguments Abort {R A}.

Definition Stmt (S R A : Type) : Type := S → Flow R A * S.

Definition ret {S R A} (a : A) : Stmt S R A := λ s, (Next a, s).

Definition bind {S R A B} (k : A → Stmt S R B) (c : Stmt S R A) : Stmt S R B :=
  λ s, match c s with
       | (Next a, s') => k a s'
       | (Return r, s') => (Return r, s')
       | (Abort, s') => (Abort, s')
       end.

#[global] Instance Stmt_ret {S R} : MRet (Stmt S R) := @ret S R.
#[global] Instance Stmt_bind {S R} : MBind (Stmt S R) := @bind S R.

Definition gets {S R A} (f : S → A) : Stmt S R A := λ s, (Next (f s), s).
Definition modify {S R} (f : S → S) : Stmt S R unit := λ s, (Next tt, f s).
Definition return_ {S R A} (r : R) : Stmt S R A := λ s, (Return r, s).
Definition abort {S R A} : Stmt S R A := λ s, (Abort, s).

(** [ASSERT(b)] *)
Definition ASSERT {S R} (b : bool) : Stmt S R unit :=
  if b then ret tt else abort.

(** What the caller of a function sees. *)
Inductive Outcome (R : Type) : Type :=
| Returned (r : R)
| Aborted.
Arguments Returned {R} r.
Arguments Aborted {R}.

(** A function body whose last statement yields the returned value; an
    early [return] inside it ends the body with that value instead. *)
Definition body {S R} (c : Stmt S R R) : S → Outcome R * S :=
  λ s, match c s with
       | (Next r, s') => (Returned r, s')
       | (Return r, s') => (Returned r, s')
       | (Abort, s') => (Aborted, s')
       end.

(** An immediately invoked lambda [[&]() -> R { ... }()] inside a body
    whose own return type is [R']: a [return] in the lambda only leaves
    the lambda. *)
Definition lambda {S R R'} (c : Stmt S R R) : Stmt S R' R :=
  λ s, match c s with
       | (Next r, s') => (Next r, s')
       | (Return r, s') => (Next r, s')
       | (Abort, s') => (Abort, s')
       end.

(** A block that owns a local object with a destructor: [finally] runs
    when the block is left, by falling through or by [return]. *)
Definition scoped {S R A} (finally : S → S) (c : Stmt S R A) : Stmt S R A :=
  λ s, match c s with
       | (Abort, s') => (Abort, s')
       | (flow, s') => (flow, finally s')
       end.

End Exec.
Import Exec.

(** ** Diagnostics *)

(** Modelled from the spec: [FailedCheck] (WGSL.h is not among the
    sources); section 6 gives it as [FailedCheck{ errors: list<Error> }]. *)
Record FailedCheck (Error : Type) : Type := mkFailedCheck { errors : list Error }.
Arguments mkFailedCheck {Error} errors.
Arguments errors {Error} f.

(** ** The passes and the types they work on

    Every pass receives the [ShaderModule] by reference and mutates it in
    place, so each is a function that also returns the module it leaves.
    A pass handed the call graph reaches the module through it; the call
    graph and the entry-point map it may update come back beside the
    module. *)
Class Passes : Type := {
  SourceMap : Type;
  Configuration : Type;
  ShaderModule : Type;
  Warning : Type;
  Error : Type;
  CallGraph : Type;
  PipelineLayout : Type;
  EntryPointInformation : Type;

  (* makeUniqueRef<ShaderModule>(wgsl, configuration) *)
  makeShaderModule : string → Configuration → ShaderModule;
  (* the debug switches behind dumpASTBetweenEachPassIfNeeded / dumpASTAtEndIfNeeded *)
  dumpASTBetweenEachPass : ShaderModule → bool;
  dumpASTAtEnd : ShaderModule → bool;

  (* static check: std::optional<FailedCheck> pass(ShaderModule&) *)
  parse : ShaderModule → option (FailedCheck Error) * ShaderModule;
  reorderGlobals : ShaderModule → option (FailedCheck Error) * ShaderModule;
  typeCheck : ShaderModule → option (FailedCheck Error) * ShaderModule;
  validateAttributes : ShaderModule → option (FailedCheck Error) * ShaderModule;

  (* prepare *)
  buildCallGraph :
    gmap string (option PipelineLayout) → gmap string EntryPointInformation →
    ShaderModule → (CallGraph * gmap string EntryPointInformation) * ShaderModule;
  mangleNames :
    CallGraph → gmap string EntryPointInformation →
    ShaderModule → (CallGraph * gmap string EntryPointInformation) * ShaderModule;
  rewritePointers : CallGraph → ShaderModule → CallGraph * ShaderModule;
  insertBoundsChecks : ShaderModule → unit * ShaderModule;
  rewriteEntryPoints : CallGraph → ShaderModule → CallGraph * ShaderModule;
  rewriteGlobalVariables :
    CallGraph → gmap string (option PipelineLayout) →
    ShaderModule → (option Error * CallGraph) * ShaderModule;
}.

(** ** The orchestration layer *)

Section WGSL.
Context `{P : Passes}.

(** [std::variant<SuccessfulCheck, FailedCheck>]: the first alternative is
    [inl], the second [inr]. *)
Record SuccessfulCheck : Type := mkSuccessfulCheck {
  warnings : list Warning;
  ast : ShaderModule }.

(** Modelled from the spec: [CompilationScope] (its class is not among the
    sources), "a scoped marker bounding the lifetime of intermediate
    naming/rewriting state", torn down when the scope exits.  A
    [CompilationScope] object either owns one piece of scoped state, named
    by a number, or has been moved from and owns nothing. *)
Definition CompilationScope : Type := option nat.

Record PrepareResult : Type := mkPrepareResult {
  callGraph : CallGraph;
  entryPoints : gmap string EntryPointInformation;
  compilationScope : CompilationScope }.

Inductive LogEntry : Type :=
| ASTDump (message : string) (module : ShaderModule)
| PhaseTimesDump (phases : list string).

(** What a running pipeline can touch besides the values it binds:
    - [shaderModule]: the module the pipeline holds by reference;
    - [phaseTimes]: the local [PhaseTimes] of the running function, the
      names of the phases whose timer has finished, oldest first (the
      measured durations are left out);
    - [scopeLocal]: the local variable [compilationScope] of [prepareImpl];
    - [liveScopes]: the scoped state that exists and is not torn down;
    - [dataLog]: what the debug switches have written. *)
Record State : Type := mkState {
  shaderModule : ShaderModule;
  phaseTimes : list string;
  scopeLocal : CompilationScope;
  liveScopes : gset nat;
  dataLog : list LogEntry }.

Definition set_shaderModule (m : ShaderModule) (st : State) : State :=
  mkState m (phaseTimes st) (scopeLocal st) (liveScopes st) (dataLog st).
Definition set_phaseTimes (ts : list string) (st : State) : State :=
  mkState (shaderModule st) ts (scopeLocal st) (liveScopes st) (dataLog st).
Definition set_scope (local : CompilationScope) (live : gset nat) (st : State) : State :=
  mkState (shaderModule st) (phaseTimes st) local live (dataLog st).
Definition log (e : LogEntry) (st : State) : State :=
  mkState (shaderModule st) (phaseTimes st) (scopeLocal st) (liveScopes st) (dataLog st ++ [e]).

(** A call of a pass on the module the pipeline holds: the pass returns a
    value and leaves the module changed. *)
Definition PassCall (A : Type) : Type := State → A * State.

Definition onModule {A} (pass : ShaderModule → A * ShaderModule) : PassCall A :=
  λ st, let '(a, m) := pass (shaderModule st) in (a, set_shaderModule m st).

(** A static-check pass has no argument but the module. *)
Definition checking {F} (pass : ShaderModule → option F * ShaderModule)
  : PassCall (option F * unit) :=
  λ st, let '(maybeFailure, st') := onModule pass st in ((maybeFailure, tt), st').

(** The call as a statement: a pass neither returns from its caller nor,
    in this model, fails an assertion. *)
Definition invoke {R A} (call : PassCall A) : Stmt State R A :=
  λ st, let '(a, st') := call st in (Next a, st').

(** Modelled from the spec: [PhaseTimer] (PhaseTimer.h is not among the
    sources): "each step is individually timed".  The timer is a local
    object; when its block is left it appends the phase to [phaseTimes]. *)
Definition PhaseTimer {R A} (phaseName : string) (c : Stmt State R A) : Stmt State R A :=
  scoped (λ st, set_phaseTimes (phaseTimes st ++ [phaseName]) st) c.

(** Modelled from the spec: [dumpASTBetweenEachPassIfNeeded] and
    [dumpASTAtEndIfNeeded] (their definitions are not among the sources):
    "an optional diagnostic dump of the AST state ..., gated by a debug
    configuration flag - purely observational".  Both write the module to
    the log when their switch is on and do nothing else. *)
Definition dumpIf (switch : ShaderModule → bool) (message : string) (st : State) : State :=
  if switch (shaderModule st) then log (ASTDump message (shaderModule st)) st else st.

Definition dumpASTBetweenEachPassIfNeeded {R} (message : string) : Stmt State R unit :=
  modify (dumpIf dumpASTBetweenEachPass message).

Definition dumpASTAtEndIfNeeded {R} : Stmt State R unit :=
  modify (dumpIf dumpASTAtEnd "AST at end").

(** Modelled from the spec: [logPhaseTimes] (not among the sources):
    "cumulative phase timings are exposed for diagnostics". *)
Definition logPhaseTimes {R} : Stmt State R unit :=
  modify (λ st, log (PhaseTimesDump (phaseTimes st)) st).

(** [CHECK_PASS(pass, ...)]: dump, run the pass under its timer inside a
    lambda, and leave the enclosing function with the failure if there is
    one.  [call] yields the pass's [std::optional] failure and the values
    the arguments passed by reference hold afterwards. *)
Definition CHECK_PASS {X F B} (pass : string) (call : PassCall (option F * B))
  : Stmt State (X + F) B :=
  dumpASTBetweenEachPassIfNeeded ("AST before " +:+ pass);;
  '(maybeFailure, refs) ← lambda (PhaseTimer pass (r ← invoke call; return_ r));
  match maybeFailure with
  | Some failure => return_ (inr failure)
  | None => mret refs
  end.

(** [RUN_PASS(pass, ...)]: the timer is built first, then the dump, then
    the pass.  What the pass returns is dropped; [call] yields the values
    the arguments passed by reference hold afterwards. *)
Definition RUN_PASS {R B} (pass : string) (call : PassCall B) : Stmt State R B :=
  PhaseTimer pass (dumpASTBetweenEachPassIfNeeded ("AST before " +:+ pass);; invoke call).

(** [RUN_PASS_WITH_RESULT(name, pass, ...)] *)
Definition RUN_PASS_WITH_RESULT {R A} (pass : string) (call : PassCall A) : Stmt State R A :=
  dumpASTBetweenEachPassIfNeeded ("AST before " +:+ pass);;
  lambda (PhaseTimer pass (r ← invoke call; return_ r)).

(** [staticCheck(wgsl, sourceMap, configuration)]; the source-map
    parameter is unnamed in the source. *)
Definition staticCheck (wgsl : string) (_ : option SourceMap) (configuration : Configuration)
  : State → Outcome (SuccessfulCheck + FailedCheck Error) * State :=
  body (
    modify (set_phaseTimes []);;                   (* PhaseTimes phaseTimes; *)
    modify (set_shaderModule (makeShaderModule wgsl configuration));;
                                                   (* auto shaderModule = makeUniqueRef<...>(...); *)
    CHECK_PASS "parse" (checking parse);;
    CHECK_PASS "reorderGlobals" (checking reorderGlobals);;
    CHECK_PASS "typeCheck" (checking typeCheck);;
    CHECK_PASS "validateAttributes" (checking validateAttributes);;
    let warnings := [] in                          (* Vector<Warning> warnings { }; *)
    shaderModule ← gets shaderModule;
    return_ (inl (mkSuccessfulCheck warnings shaderModule))).

(** [CompilationScope compilationScope(shaderModule);] allocates scoped
    state under a name not in use. *)
Definition constructCompilationScope {R} : Stmt State R unit :=
  modify (λ st, let h := fresh (liveScopes st) in
                set_scope (Some h) ({[h]} ∪ liveScopes st) st).

(** [WTFMove(compilationScope)]: the new object takes what the local owns
    and the local is left owning nothing. *)
Definition moveCompilationScope {R} : Stmt State R CompilationScope :=
  λ st, (Next (scopeLocal st), set_scope None (liveScopes st) st).

(** [~CompilationScope()] of the local: tears down what it still owns. *)
Definition destroyCompilationScope (st : State) : State :=
  match scopeLocal st with
  | Some h => set_scope None (liveScopes st ∖ {[h]}) st
  | None => st
  end.

(** [prepareImpl(shaderModule, pipelineLayouts)].  The local
    [compilationScope] lives until the function is left; the lambda holds
    the six passes under the "prepare total" timer. *)
Definition prepareImpl (shaderModule : ShaderModule)
    (pipelineLayouts : gmap string (option PipelineLayout))
  : State → Outcome (PrepareResult + Error) * State :=
  body (
    modify (set_shaderModule shaderModule);;       (* ShaderModule& shaderModule *)
    scoped destroyCompilationScope (
      constructCompilationScope;;
      modify (set_phaseTimes []);;
      result ← lambda (PhaseTimer "prepare total" (
        let entryPoints : gmap string EntryPointInformation := ∅ in
        '(callGraph, entryPoints) ←
          RUN_PASS_WITH_RESULT "buildCallGraph" (onModule (buildCallGraph pipelineLayouts entryPoints));
        '(callGraph, entryPoints) ←
          RUN_PASS "mangleNames" (onModule (mangleNames callGraph entryPoints));
        callGraph ← RUN_PASS "rewritePointers" (onModule (rewritePointers callGraph));
        RUN_PASS "insertBoundsChecks" (onModule insertBoundsChecks);;
        callGraph ← RUN_PASS "rewriteEntryPoints" (onModule (rewriteEntryPoints callGraph));
        callGraph ←
          CHECK_PASS "rewriteGlobalVariables" (onModule (rewriteGlobalVariables callGraph pipelineLayouts));
        dumpASTAtEndIfNeeded;;
        compilationScope ← moveCompilationScope;
        return_ (inl (mkPrepareResult callGraph entryPoints compilationScope))));
      logPhaseTimes;;
      return_ result)).

(** [HashMap::add]: inserts unless the key is already there. *)
Definition HashMap_add {V} (key : string) (value : V) (m : gmap string V) : gmap string V :=
  match m !! key with
  | Some _ => m
  | None => <[key := value]> m
  end.

(** [prepare(ast, pipelineLayouts)] *)
Definition prepare (ast : ShaderModule) (pipelineLayouts : gmap string (option PipelineLayout))
  : State → Outcome (PrepareResult + Error) * State :=
  prepareImpl ast pipelineLayouts.

(** [prepare(ast, entryPointName, pipelineLayout)], the second overload. *)
Definition prepare_entryPoint (ast : ShaderModule) (entryPointName : string)
    (pipelineLayout : option PipelineLayout)
  : State → Outcome (PrepareResult + Error) * State :=
  let pipelineLayouts : gmap string (option PipelineLayout) := ∅ in
  let pipelineLayouts := HashMap_add entryPointName pipelineLayout pipelineLayouts in
  prepareImpl ast pipelineLayouts.

(** The static check as section 4.1 of the spec words its success value:
    "an accumulated list of non-fatal warnings gathered across any pass
    that supports warnings".  [emitted pass m] stands for the warnings the
    pass named [pass] has to report when it runs on [m]; the failures are
    those of the passes. *)
Definition staticCheck_spec (emitted : string → ShaderModule → list Warning)
    (wgsl : string) (configuration : Configuration)
  : SuccessfulCheck + FailedCheck Error :=
  let m0 := makeShaderModule wgsl configuration in
  match parse m0 with
  | (Some failure, _) => inr failure
  | (None, m1) =>
    match reorderGlobals m1 with
    | (Some failure, _) => inr failure
    | (None, m2) =>
      match typeCheck m2 with
      | (Some failure, _) => inr failure
      | (None, m3) =>
        match validateAttributes m3 with
        | (Some failure, _) => inr failure
        | (None, m4) =>
          inl (mkSuccessfulCheck
                 (emitted "parse" m0 ++ emitted "reorderGlobals" m1 ++
                  emitted "typeCheck" m2 ++ emitted "validateAttributes" m3)
                 m4)
        end
      end
    end
  end.

(** The passes of the two pipelines, in the order the source lists them. *)
Definition checkPasses : list string :=
  ["parse"; "reorderGlobals"; "typeCheck"; "validateAttributes"].

Definition preparePasses : list string :=
  ["buildCallGraph"; "mangleNames"; "rewritePointers"; "insertBoundsChecks";
   "rewriteEntryPoints"; "rewriteGlobalVariables"].

(** The module a caller gets out of a static check, if any. *)
Definition checkedAST (out : Outcome (SuccessfulCheck + FailedCheck Error)) : option ShaderModule :=
  match out with
  | Returned (inl success) => Some (ast success)
  | _ => None
  end.

End WGSL.

(** ** Constant evaluation *)

(** The kinds of [AST::Expression] that [evaluate] tells apart: an
    identifier, which carries its name, and every other kind. *)
Inductive ExpressionKind : Type :=
| IdentifierExpression (identifier : string)
| OtherExpression (nodeKind : string).

Section ConstantEvaluation.
Context {ConstantValue : Type}.

(** The default-constructed [ConstantValue]: what [HashMap::get] returns
    for a key that is not in the map. *)
Variable emptyValue : ConstantValue.

Record Expression : Type := mkExpression {
  kind : ExpressionKind;
  m_constantValue : option ConstantValue }.

Definition constantValue (expression : Expression) : option ConstantValue :=
  m_constantValue expression.

Definition setConstantValue (value : ConstantValue) (expression : Expression) : Expression :=
  mkExpression (kind expression) (Some value).

(** [is<const AST::IdentifierExpression>(expression)] *)
Definition is_IdentifierExpression (expression : Expression) : bool :=
  match kind expression with
  | IdentifierExpression _ => true
  | OtherExpression _ => false
  end.

(** The node [evaluate] was handed (it writes the cache through a
    [const_cast]) and the keys it has looked up in the constants map. *)
Record EvalState : Type := mkEvalState {
  node : Expression;
  lookups : list string }.

(** [constants.get(key)] *)
Definition HashMap_get {R} (constants : gmap string ConstantValue) (key : string)
  : Stmt EvalState R ConstantValue :=
  λ st, (Next (default emptyValue (constants !! key)),
         mkEvalState (node st) (lookups st ++ [key])).

(** [downcast<const AST::IdentifierExpression>(expression).identifier()].
    In [evaluate] the [ASSERT] before it has stopped every node of another
    kind, so the second branch is never taken there. *)
Definition downcast_identifier {R} : Stmt EvalState R string :=
  λ st, match kind (node st) with
        | IdentifierExpression identifier => (Next identifier, st)
        | OtherExpression _ => (Abort, st)
        end.

(** [evaluate(expression, constants)], with [ASSERT] as in a build that
    has assertions enabled. *)
Definition evaluate (expression : Expression) (constants : gmap string ConstantValue)
  : Outcome ConstantValue * EvalState :=
  body (
    cached ← gets (λ st, constantValue (node st));
    (if cached is Some constantValue            (* if (auto constantValue = ...) *)
     then return_ constantValue                 (*     return *constantValue;    *)
     else mret tt);;
    isIdentifier ← gets (λ st, is_IdentifierExpression (node st));
    ASSERT isIdentifier;;
    identifier ← downcast_identifier;
    constantValue ← HashMap_get constants identifier;
    modify (λ st, mkEvalState (setConstantValue constantValue (node st)) (lookups st));;
    return_ constantValue)
  (mkEvalState expression []).

End ConstantEvaluation.

(** ** The debug log *)

Section DebugLog.
Context `{P : Passes}.

(** What [dumpASTBetweenEachPassIfNeeded] writes over a run of passes:
    for each pass, in order, the module that pass is about to receive,
    under the message the macros build, when the switch is on for it. *)
Definition dumpsBefore (steps : list (string * ShaderModule)) : list LogEntry :=
  flat_map (λ step, if dumpASTBetweenEachPass step.2
                    then [ASTDump ("AST before " +:+ step.1) step.2] else []) steps.

(** What [dumpASTAtEndIfNeeded] writes. *)
Definition dumpAtEnd (m : ShaderModule) : list LogEntry :=
  if dumpASTAtEnd m then [ASTDump "AST at end" m] else [].

End DebugLog.

(** * The History API (Source/WebCore/page/History.cpp)

    [History] is the object behind [window.history].  What it reads from
    its frame, document and page is gathered in the records below; what
    the URL class and the clock compute is left to the class [Platform]. *)

Module DOMHistory.

Inductive ExceptionCode : Type := SecurityError | QuotaExceededError.

(** [Exception { code }] and [Exception { code, message }]. *)
Record Exception : Type := mkException {
  code : ExceptionCode;
  message : option string }.

(** [ExceptionOr<T>]: [inl] is the exception. *)
Definition ExceptionOr (T : Type) : Type := Exception + T.

Inductive StateObjectType : Type := Push | Replace.
Inductive ScrollRestoration : Type := Auto | Manual.

(** A [SerializedScriptValue] is known by its address, which is what the
    pointer comparisons of [History] look at, and by its wire bytes. *)
Record SerializedScriptValue : Type := mkSerializedScriptValue {
  address : nat;
  wireBytes : list Byte.byte }.

Record HistoryItem : Type := mkHistoryItem {
  shouldRestoreScrollPosition : bool;
  stateObject : option SerializedScriptValue }.

Class Platform : Type := {
  URL : Type;
  WallTime : Type;
  isValid : URL → bool;
  protocolHostAndPortAreEqual : URL → URL → bool;
  user : URL → string;
  password : URL → string;
  protocolIsFile : URL → bool;
  fileSystemPath : URL → string;
  viewWithoutQueryOrFragmentIdentifier : URL → string;
  path : URL → string;
  query : URL → string;
  string_ : URL → string;                          (* url.string() *)
  stringCenterEllipsizedToLength : URL → string;
  (* linkedOnOrAfterSDKWithBehavior(SDKAlignedBehavior::PushStateFilePathRestriction)
     on Cocoa; the conjunct is not compiled in elsewhere, which is [true] *)
  pushStateFilePathRestriction : bool;
  (* [now - start > stateObjectTimeSpan] *)
  timeSpanIsOver : WallTime → WallTime → bool;
  (* how makeString prints stateObjectTimeSpan.seconds() *)
  timeSpanSeconds : string;
  (* a default-constructed WallTime *)
  WallTime_default : WallTime;
}.

Section History.
Context `{PF : Platform}.

(** What [History] asks of [frame->document()]. *)
Record Document : Type := mkDocument {
  isFullyActive : bool;
  url : URL;
  completeURL : string → URL;
  shouldDisablePushStateFilePathRestrictions : bool;   (* quirks() *)
  securityOrigin_isLocal : bool;
  securityOrigin_isOpaque : bool;
  securityOrigin_canRequest : URL → bool }.

(** What it asks of [frame->page()]: the length of the back/forward list
    and the [History] of the main frame's window, which is absent when the
    main frame is not local or has no window. *)
Record Page : Type := mkPage {
  backForward_count : N;
  mainFrame_history : option nat }.

Record Frame : Type := mkFrame {
  document : Document;
  page : option Page }.

(** Calls out of [History] that the caller can observe, in the order they
    are made.  What the callees do in turn, the loader moving to a new
    current item for one, is outside this file. *)
Inductive Event : Type :=
| scheduleHistoryNavigation (distance : Z)
| updateURLForPushOrReplaceState (fullURL : URL)
| pushState (data : option SerializedScriptValue) (urlString : string)
| dispatchDidPushStateWithinPage
| replaceState (data : option SerializedScriptValue) (urlString : string)
| dispatchDidReplaceStateWithinPage.

(** The mutable state.  The members of the [History] objects are kept
    field by field, each a map from the object (its address) to the
    member's value; an object not in a map has the member's initial value
    (null, empty, zero).  [currentItem] is the current [HistoryItem] of the
    frame's loader. *)
Record World : Type := mkWorld {
  currentItem : option HistoryItem;
  m_lastStateObjectRequested : gmap nat SerializedScriptValue;
  m_cachedState : gmap nat nat;
  m_currentStateObjectTimeSpanStart : gmap nat WallTime;
  m_currentStateObjectTimeSpanObjectsAdded : gmap nat N;
  m_totalStateObjectUsage : gmap nat N;
  m_mostRecentStateObjectUsage : gmap nat N;
  events : list Event }.

Definition set_currentItem (item : option HistoryItem) (w : World) : World :=
  mkWorld item (m_lastStateObjectRequested w) (m_cachedState w)
    (m_currentStateObjectTimeSpanStart w) (m_currentStateObjectTimeSpanObjectsAdded w)
    (m_totalStateObjectUsage w) (m_mostRecentStateObjectUsage w) (events w).
Definition set_lastStateObjectRequested (m : gmap nat SerializedScriptValue) (w : World) : World :=
  mkWorld (currentItem w) m (m_cachedState w)
    (m_currentStateObjectTimeSpanStart w) (m_currentStateObjectTimeSpanObjectsAdded w)
    (m_totalStateObjectUsage w) (m_mostRecentStateObjectUsage w) (events w).
Definition set_cachedState (m : gmap nat nat) (w : World) : World :=
  mkWorld (currentItem w) (m_lastStateObjectRequested w) m
    (m_currentStateObjectTimeSpanStart w) (m_currentStateObjectTimeSpanObjectsAdded w)
    (m_totalStateObjectUsage w) (m_mostRecentStateObjectUsage w) (events w).
Definition set_timeSpan (start : gmap nat WallTime) (added : gmap nat N) (w : World) : World :=
  mkWorld (currentItem w) (m_lastStateObjectRequested w) (m_cachedState w)
    start added (m_totalStateObjectUsage w) (m_mostRecentStateObjectUsage w) (events w).
Definition set_usage (total recent : gmap nat N) (w : World) : World :=
  mkWorld (currentItem w) (m_lastStateObjectRequested w) (m_cachedState w)
    (m_currentStateObjectTimeSpanStart w) (m_currentStateObjectTimeSpanObjectsAdded w)
    total recent (events w).
Definition emit (e : Event) (w : World) : World :=
  mkWorld (currentItem w) (m_lastStateObjectRequested w) (m_cachedState w)
    (m_currentStateObjectTimeSpanStart w) (m_currentStateObjectTimeSpanObjectsAdded w)
    (m_totalStateObjectUsage w) (m_mostRecentStateObjectUsage w) (events w ++ [e]).

(** Reading a counter member of an object. *)
Definition counter (m : gmap nat N) (object : nat) : N := default 0%N (m !! object).

(** [if (c) stmt;] *)
Definition when_ {S R} (c : bool) (stmt : Stmt S R unit) : Stmt S R unit :=
  if c then stmt else mret tt.

(** [p->...] on a pointer: a null pointer stops the process. *)
Definition deref {S R A} (p : option A) : Stmt S R A :=
  match p with
  | Some a => mret a
  | None => abort
  end.

(** [urlString.isEmpty()]: a null [String] ([None]) is empty too. *)
Definition isEmpty (urlString : option string) : bool :=
  match urlString with
  | Some (String _ _) => false
  | _ => true
  end.

(** Equality of two pointers to serialized values, either of which may be
    null. *)
Definition samePointer (p q : option SerializedScriptValue) : bool :=
  bool_decide (address <$> p = address <$> q).

Definition isDocumentFullyActive (frame : option Frame) : bool :=
  match frame with
  | Some frame => isFullyActive (document frame)
  | None => false
  end.

Definition documentNotFullyActive : Exception :=
  mkException SecurityError
    (Some "Attempt to use History API from a document that isn't fully active").

(** In what follows [frame] is the value of [this->frame()] and [this] the
    address of the [History] object. *)

Definition length (frame : option Frame) : World → Outcome (ExceptionOr N) * World :=
  body (
    when_ (negb (isDocumentFullyActive frame)) (return_ (inl documentNotFullyActive));;
    frame ← deref frame;
    match page frame with
    | None => return_ (inr 0%N)
    | Some page => return_ (inr (backForward_count page))
    end).

Definition scrollRestoration (frame : option Frame)
  : World → Outcome (ExceptionOr ScrollRestoration) * World :=
  body (
    when_ (negb (isDocumentFullyActive frame)) (return_ (inl documentNotFullyActive));;
    historyItem ← gets currentItem;
    match historyItem with
    | None => return_ (inr Auto)
    | Some historyItem =>
        return_ (inr (if shouldRestoreScrollPosition historyItem then Auto else Manual))
    end).

Definition setScrollRestoration (frame : option Frame) (scrollRestoration : ScrollRestoration)
  : World → Outcome (ExceptionOr unit) * World :=
  body (
    when_ (negb (isDocumentFullyActive frame)) (return_ (inl documentNotFullyActive));;
    historyItem ← gets currentItem;
    match historyItem with
    | Some historyItem =>
        modify (set_currentItem
                  (Some (mkHistoryItem
                           (if scrollRestoration is Auto then true else false)
                           (stateObject historyItem))))
    | None => mret tt
    end;;
    return_ (inr tt)).

Definition stateInternal (frame : option Frame) (w : World) : option SerializedScriptValue :=
  match frame with
  | None => None
  | Some _ =>
    match currentItem w with
    | None => None
    | Some historyItem => stateObject historyItem
    end
  end.

Definition state (this : nat) (frame : option Frame)
  : World → Outcome (ExceptionOr (option SerializedScriptValue)) * World :=
  body (
    when_ (negb (isDocumentFullyActive frame)) (return_ (inl documentNotFullyActive));;
    modify (λ w, set_lastStateObjectRequested
                   (match stateInternal frame w with
                    | Some value => <[this := value]> (m_lastStateObjectRequested w)
                    | None => delete this (m_lastStateObjectRequested w)
                    end) w);;
    requested ← gets (λ w, m_lastStateObjectRequested w !! this);
    return_ (inr requested)).

Definition stateChanged (this : nat) (frame : option Frame) (w : World) : bool :=
  negb (samePointer (m_lastStateObjectRequested w !! this) (stateInternal frame w)).

(** [cachedState()] returns a reference to the member; its value at the
    time of return is given here. *)
Definition cachedState (this : nat) (frame : option Frame)
  : World → Outcome (option nat) * World :=
  body (
    w ← gets id;
    when_ (bool_decide (is_Some (m_cachedState w !! this)) && stateChanged this frame w)
      (modify (λ w, set_cachedState (delete this (m_cachedState w)) w));;
    cached ← gets (λ w, m_cachedState w !! this);
    return_ cached).

Definition isSameAsCurrentState (frame : option Frame) (state : option SerializedScriptValue)
    (w : World) : bool :=
  samePointer state (stateInternal frame w).

(** [go(int distance)] *)
Definition go (frame : option Frame) (distance : Z)
  : World → Outcome (ExceptionOr unit) * World :=
  body (
    when_ (negb (isDocumentFullyActive frame)) (return_ (inl documentNotFullyActive));;
    modify (emit (scheduleHistoryNavigation distance));;
    return_ (inr tt)).

(** [go(Document& document, int distance)]; [canNavigate] is the value of
    [document.canNavigate(frame)], and the assertion that the call is on
    the main thread is taken to hold. *)
Definition go_document (frame : option Frame) (canNavigate : bool) (distance : Z)
  : World → Outcome (ExceptionOr unit) * World :=
  body (
    when_ (negb (isDocumentFullyActive frame)) (return_ (inl documentNotFullyActive));;
    when_ (negb canNavigate) (return_ (inr tt));;
    modify (emit (scheduleHistoryNavigation distance));;
    return_ (inr tt)).

Definition back (frame : option Frame) := go frame (-1).
Definition back_document (frame : option Frame) (canNavigate : bool) :=
  go_document frame canNavigate (-1).
Definition forward (frame : option Frame) := go frame 1.
Definition forward_document (frame : option Frame) (canNavigate : bool) :=
  go_document frame canNavigate 1.

(** [urlForState(urlString)]; a null [String] is [None]. *)
Definition urlForState {R} (frame : option Frame) (urlString : option string)
  : Stmt World R URL :=
  frame ← deref frame;
  match urlString with
  | None => mret (url (document frame))
  | Some urlString => mret (completeURL (document frame) urlString)
  end.

Definition totalStateObjectPayloadLimit : N := 0x4000000.
Definition perStateObjectTimeSpanLimit : N := 100.

(** [createBlockedURLSecurityErrorWithMessageSuffix(suffix)] *)
Definition createBlockedURLSecurityErrorWithMessageSuffix
    (stateObjectType : StateObjectType) (documentURL fullURL : URL) (suffix : string)
  : Exception :=
  let functionName :=
    if stateObjectType is Replace then "history.replaceState()" else "history.pushState()" in
  mkException SecurityError
    (Some ("Blocked attempt to use " +:+ functionName +:+
           " to change session history URL from " +:+
           stringCenterEllipsizedToLength documentURL +:+ " to " +:+
           stringCenterEllipsizedToLength fullURL +:+ ". " +:+ suffix)).

(** [Checked<T>] arithmetic: a result outside the type stops the process. *)
Definition checked {S R} (bits : N) (value : Z) : Stmt S R N :=
  if bool_decide (0 ≤ value < 2 ^ Z.of_N bits)%Z then mret (Z.to_N value) else abort.

(** [stateObjectAdded(data, urlString, stateObjectType)]; [now] is what
    [WallTime::now()] returns during the call. *)
Definition stateObjectAdded (this : nat) (frame : option Frame) (now : WallTime)
    (data : option SerializedScriptValue) (urlString : option string)
    (stateObjectType : StateObjectType)
  : World → Outcome (ExceptionOr unit) * World :=
  body (
    modify (λ w, set_cachedState (delete this (m_cachedState w)) w);;
    when_ (negb (isDocumentFullyActive frame)) (return_ (inl documentNotFullyActive));;
    theFrame ← deref frame;
    page ← (if page theFrame is Some page then mret page else return_ (inr tt));
    fullURL ← urlForState frame urlString;
    when_ (negb (isValid fullURL)) (return_ (inl (mkException SecurityError None)));;
    let documentURL := url (document theFrame) in
    when_ (negb (protocolHostAndPortAreEqual fullURL documentURL)
           || negb (String.eqb (user fullURL) (user documentURL))
           || negb (String.eqb (password fullURL) (password documentURL)))
      (return_ (inl (createBlockedURLSecurityErrorWithMessageSuffix stateObjectType
                       documentURL fullURL
                       "Protocols, domains, ports, usernames, and passwords must match.")));;
    when_ (protocolIsFile fullURL
           && pushStateFilePathRestriction
           && negb (shouldDisablePushStateFilePathRestrictions (document theFrame))
           && negb (String.eqb (fileSystemPath fullURL) (fileSystemPath documentURL)))
      (return_ (inl (createBlockedURLSecurityErrorWithMessageSuffix stateObjectType
                       documentURL fullURL
                       "Only differences in query and fragment are allowed for file: URLs.")));;
    let allowSandboxException :=
      (securityOrigin_isLocal (document theFrame) || securityOrigin_isOpaque (document theFrame))
      && String.eqb (viewWithoutQueryOrFragmentIdentifier documentURL)
                    (viewWithoutQueryOrFragmentIdentifier fullURL) in
    when_ (negb allowSandboxException
           && negb (securityOrigin_canRequest (document theFrame) fullURL)
           && (negb (String.eqb (path fullURL) (path documentURL))
               || negb (String.eqb (query fullURL) (query documentURL))))
      (return_ (inl (createBlockedURLSecurityErrorWithMessageSuffix stateObjectType
                       documentURL fullURL
                       "Paths and fragments must match for a sandboxed document.")));;
    mainHistory ← (if mainFrame_history page is Some mainHistory
                   then mret mainHistory else return_ (inr tt));
    let currentTimestamp := now in
    start ← gets (λ w, default WallTime_default
                         (m_currentStateObjectTimeSpanStart w !! mainHistory));
    when_ (timeSpanIsOver currentTimestamp start)
      (modify (λ w, set_timeSpan
                      (<[mainHistory := currentTimestamp]> (m_currentStateObjectTimeSpanStart w))
                      (<[mainHistory := 0%N]> (m_currentStateObjectTimeSpanObjectsAdded w)) w));;
    added ← gets (λ w, counter (m_currentStateObjectTimeSpanObjectsAdded w) mainHistory);
    when_ (bool_decide (perStateObjectTimeSpanLimit ≤ added)%N)
      (if stateObjectType is Replace
       then return_ (inl (mkException SecurityError
              (Some ("Attempt to use history.replaceState() more than " +:+ "100" +:+
                     " times per " +:+ timeSpanSeconds +:+ " seconds"))))
       else return_ (inl (mkException SecurityError
              (Some ("Attempt to use history.pushState() more than " +:+ "100" +:+
                     " times per " +:+ timeSpanSeconds +:+ " seconds")))));;
    urlSize ← checked 32 (Z.of_nat (String.length (string_ fullURL)));
    urlSize ← checked 32 (Z.of_N urlSize * 2);
    let payloadSize := urlSize in
    payloadSize ← checked 64
      (Z.of_N payloadSize +
       (if data is Some data then Z.of_nat (List.length (wireBytes data)) else 0));
    newTotalUsage ← gets (λ w, counter (m_totalStateObjectUsage w) mainHistory);
    mostRecent ← gets (λ w, counter (m_mostRecentStateObjectUsage w) this);
    newTotalUsage ← (if stateObjectType is Replace
                     then checked 64 (Z.of_N newTotalUsage - Z.of_N mostRecent)
                     else mret newTotalUsage);
    newTotalUsage ← checked 64 (Z.of_N newTotalUsage + Z.of_N payloadSize);
    when_ (bool_decide (totalStateObjectPayloadLimit < newTotalUsage)%N)
      (if stateObjectType is Replace
       then return_ (inl (mkException QuotaExceededError
              (Some "Attempt to store more data than allowed using history.replaceState()")))
       else return_ (inl (mkException QuotaExceededError
              (Some "Attempt to store more data than allowed using history.pushState()"))));;
    modify (λ w, set_usage (m_totalStateObjectUsage w)
                   (<[this := payloadSize]> (m_mostRecentStateObjectUsage w)) w);;
    modify (λ w, set_usage (<[mainHistory := newTotalUsage]> (m_totalStateObjectUsage w))
                   (m_mostRecentStateObjectUsage w) w);;
    modify (λ w, set_timeSpan (m_currentStateObjectTimeSpanStart w)
                   (<[mainHistory :=
                        ((counter (m_currentStateObjectTimeSpanObjectsAdded w) mainHistory + 1)
                           mod 2 ^ 32)%N]>
                      (m_currentStateObjectTimeSpanObjectsAdded w)) w);;
    when_ (negb (isEmpty urlString))
      (modify (emit (updateURLForPushOrReplaceState fullURL)));;
    match stateObjectType with
    | Push =>
        modify (emit (pushState data (string_ fullURL)));;
        modify (emit dispatchDidPushStateWithinPage)
    | Replace =>
        modify (emit (replaceState data (string_ fullURL)));;
        modify (emit dispatchDidReplaceStateWithinPage)
    end;;
    return_ (inr tt)).

(** For stating what a call is charged: the URL [urlForState] yields for a
    frame that is there, and twice its length plus the wire bytes. *)
Definition requestedURL (f : Frame) (urlString : option string) : URL :=
  match urlString with
  | None => url (document f)
  | Some urlString => completeURL (document f) urlString
  end.

Definition payloadOf (fullURL : URL) (data : option SerializedScriptValue) : N :=
  (2 * N.of_nat (String.length (string_ fullURL)) +
   (if data is Some data then N.of_nat (List.length (wireBytes data)) else 0))%N.

(** The sum of a usage member over all [History] objects. *)
Definition sumUsage (m : gmap nat N) : N := map_fold (λ _ v acc, (v + acc)%N) 0%N m.

End History.

(** A small platform to run [History] on: a URL is its own string, the
    document at the origin and path before the first [?]; time is in whole
    seconds. *)
Module Sample.

Definition questionMark : Ascii.ascii := Ascii.ascii_of_nat 63.

Fixpoint beforeQuery (s : string) : string :=
  match s with
  | EmptyString => EmptyString
  | String c rest => if Ascii.eqb c questionMark then EmptyString else String c (beforeQuery rest)
  end.

Fixpoint fromQuery (s : string) : string :=
  match s with
  | EmptyString => EmptyString
  | String c rest => if Ascii.eqb c questionMark then s else fromQuery rest
  end.

Definition platform : Platform := {|
  URL := string;
  WallTime := nat;
  isValid := λ u, negb (String.eqb u EmptyString);
  protocolHostAndPortAreEqual := λ a b, String.prefix "https://example.org/" a
                                        && String.prefix "https://example.org/" b;
  user := λ _, EmptyString;
  password := λ _, EmptyString;
  protocolIsFile := λ _, false;
  fileSystemPath := λ _, EmptyString;
  viewWithoutQueryOrFragmentIdentifier := beforeQuery;
  path := beforeQuery;
  query := fromQuery;
  string_ := λ u, u;
  stringCenterEllipsizedToLength := λ u, u;
  pushStateFilePathRestriction := true;
  timeSpanIsOver := λ now start, Nat.ltb 10 (now - start);
  timeSpanSeconds := "10";
  WallTime_default := 0;
|}.

Definition page_ : @Document platform :=
  @mkDocument platform true "https://example.org/app" (λ s, "https://example.org/" +:+ s)
    false false false (λ _, true).

(** A main frame: its own [History], at address [1], is the main one. *)
Definition mainFrame : @Frame platform :=
  @mkFrame platform page_ (Some (mkPage 3 (Some 1))).

Definition fresh_ : @World platform :=
  @mkWorld platform None ∅ ∅ ∅ ∅ ∅ ∅ [].

(** The same page with the frame detached from it, and a frame whose
    document takes URL strings as they come. *)
Definition detachedFrame : @Frame platform := @mkFrame platform page_ None.


(** Worlds with a current item, with the rate window of object [1] used
    up, and with object [2] charged more than object [1] has in total. *)
Definition visited : @World platform :=
  @mkWorld platform (Some (mkHistoryItem true None)) ∅ ∅ ∅ ∅ ∅ ∅ [].

Definition busy : @World platform :=
  @mkWorld platform None ∅ ∅ ∅ {[1 := 100%N]} ∅ ∅ [].

Definition overdrawn : @World platform :=
  @mkWorld platform None ∅ ∅ ∅ ∅ ∅ {[2 := 5%N]} [].

End Sample.

End DOMHistory.

(** ** A small instance of the passes

    Used to run the pipelines on concrete inputs.  A module holds its source
    text and, once parsed, its global constants, each with the globals its
    initialiser mentions. *)

Module Demo.

Record Module_ : Type := mkModule {
  source : string;
  globals : list (string * list string);
  mangled : bool }.

Definition known_sources : list (string * list (string * list string)) :=
  [ ("const a = b; const b = a;", [("a", ["b"]); ("b", ["a"])]);
    ("const a = 1; const b = a;", [("a", []); ("b", ["a"])]);
    ("@compute @workgroup_size(1) fn main() { }", []) ].

Fixpoint assoc {A} (k : string) (l : list (string * A)) : option A :=
  match l with
  | [] => None
  | (k', v) :: l' => if String.eqb k k' then Some v else assoc k l'
  end.

Definition parseKnown (m : Module_) : option (FailedCheck string) * Module_ :=
  match assoc (source m) known_sources with
  | Some gs => (None, mkModule (source m) gs (mangled m))
  | None => (Some (mkFailedCheck ["syntax error"]), m)
  end.

Definition deps (gs : list (string * list string)) (x : string) : list string :=
  default [] (assoc x gs).

Fixpoint reaches (fuel : nat) (gs : list (string * list string)) (x y : string) : bool :=
  match fuel with
  | O => false
  | S fuel' => existsb (λ d, String.eqb d y || reaches fuel' gs d y) (deps gs x)
  end.

Definition cyclic (m : Module_) : bool :=
  existsb (λ g, reaches (length (globals m)) (globals m) g.1 g.1) (globals m).

Definition rejectCycles (m : Module_) : option (FailedCheck string) * Module_ :=
  if cyclic m
  then (Some (mkFailedCheck ["cyclic dependency"]), m)
  else (None, m).

Definition accept (m : Module_) : option (FailedCheck string) * Module_ := (None, m).

Definition requested (layouts : gmap string (option (list (nat * nat)))) : list string :=
  (map_to_list layouts).*1.

Definition bindLayouts (cg : list string)
    (layouts : gmap string (option (list (nat * nat)))) (m : Module_)
  : (option string * list string) * Module_ :=
  if forallb (λ e, bool_decide (is_Some (mjoin (layouts !! e)))) cg
  then ((None, cg), m)
  else ((Some "entry point without a layout", cg), m).

Definition passes : Passes := {|
  SourceMap := unit;
  Configuration := unit;
  ShaderModule := Module_;
  Warning := string;
  Error := string;
  CallGraph := list string;
  PipelineLayout := list (nat * nat);
  EntryPointInformation := nat;
  makeShaderModule := λ wgsl _, mkModule wgsl [] false;
  dumpASTBetweenEachPass := λ _, true;
  dumpASTAtEnd := λ _, false;
  parse := parseKnown;
  reorderGlobals := rejectCycles;
  typeCheck := accept;
  validateAttributes := accept;
  buildCallGraph := λ layouts eps m, ((requested layouts, eps), m);
  mangleNames := λ cg eps m, ((cg, eps), mkModule (source m) (globals m) true);
  rewritePointers := λ cg m, (cg, m);
  insertBoundsChecks := λ m, (tt, m);
  rewriteEntryPoints := λ cg m, (cg, m);
  rewriteGlobalVariables := bindLayouts;
|}.

(** A state in which no pipeline has run yet. *)
Definition idle : @State passes :=
  @mkState passes (mkModule "fn main() { }" [] false) [] None ∅ [].

End Demo.

(** * Properties *)

(** ** The static-check pipeline *)

Section Pipelines.
Context `{P : Passes}.

(** A dump leaves everything but the log as it was. *)
Lemma shaderModule_dumpIf switch message st :
  shaderModule (dumpIf switch message st) = shaderModule st.
Proof. unfold dumpIf. by destruct (switch _). Qed.

Lemma phaseTimes_dumpIf switch message st :
  phaseTimes (dumpIf switch message st) = phaseTimes st.
Proof. unfold dumpIf. by destruct (switch _). Qed.

Lemma scopeLocal_dumpIf switch message st :
  scopeLocal (dumpIf switch message st) = scopeLocal st.
Proof. unfold dumpIf. by destruct (switch _). Qed.

Lemma liveScopes_dumpIf switch message st :
  liveScopes (dumpIf switch message st) = liveScopes st.
Proof. unfold dumpIf. by destruct (switch _). Qed.

Create Rewrite HintDb wgsl.
Hint Rewrite shaderModule_dumpIf phaseTimes_dumpIf scopeLocal_dumpIf liveScopes_dumpIf : wgsl.

#[local] Arguments dumpIf : simpl never.

Ltac tidy := repeat (progress (cbn; autorewrite with wgsl)).

(** Unfolds the statement layer down to the calls of the passes. *)
Ltac run_pipeline :=
  unfold staticCheck, prepare, prepare_entryPoint, prepareImpl, staticCheck_spec,
    CHECK_PASS, RUN_PASS, RUN_PASS_WITH_RESULT, PhaseTimer, checking, onModule, invoke,
    dumpASTBetweenEachPassIfNeeded, dumpASTAtEndIfNeeded, logPhaseTimes,
    constructCompilationScope, moveCompilationScope, destroyCompilationScope,
    body, lambda, scoped, mbind, mret, Stmt_bind, Stmt_ret, bind, ret,
    gets, modify, return_;
  tidy.

(** Splits on what the next pass returns. *)
Ltac next_pass :=
  match goal with
  | |- context [parse ?x] => destruct (parse x) as [[?f|] ?m] eqn:?Hparse
  | |- context [reorderGlobals ?x] => destruct (reorderGlobals x) as [[?f|] ?m] eqn:?Hreorder
  | |- context [typeCheck ?x] => destruct (typeCheck x) as [[?f|] ?m] eqn:?Htype
  | |- context [validateAttributes ?x] =>
      destruct (validateAttributes x) as [[?f|] ?m] eqn:?Hattr
  end; tidy.

(** Two results of one call of a pass are the same result. *)
Ltac same_call :=
  repeat match goal with
         | H : ?call = _, H' : ?call = _ |- _ => rewrite H in H'
         | _ => progress simplify_eq
         end.

(** The value [staticCheck] returns and the phases it has timed, pass by
    pass: the pipeline stops at the first pass that reports a failure. *)
Lemma staticCheck_run wgsl sourceMap configuration st :
  let m0 := makeShaderModule wgsl configuration in
  let out := (staticCheck wgsl sourceMap configuration st).1 in
  let st' := (staticCheck wgsl sourceMap configuration st).2 in
  match parse m0 with
  | (Some f, m1) =>
      out = Returned (inr f) ∧ phaseTimes st' = take 1 checkPasses ∧ shaderModule st' = m1
  | (None, m1) =>
    match reorderGlobals m1 with
    | (Some f, m2) =>
        out = Returned (inr f) ∧ phaseTimes st' = take 2 checkPasses ∧ shaderModule st' = m2
    | (None, m2) =>
      match typeCheck m2 with
      | (Some f, m3) =>
          out = Returned (inr f) ∧ phaseTimes st' = take 3 checkPasses ∧ shaderModule st' = m3
      | (None, m3) =>
        match validateAttributes m3 with
        | (Some f, m4) =>
            out = Returned (inr f) ∧ phaseTimes st' = checkPasses ∧ shaderModule st' = m4
        | (None, m4) =>
            out = Returned (inl (mkSuccessfulCheck [] m4)) ∧
            phaseTimes st' = checkPasses ∧ shaderModule st' = m4
        end
      end
    end
  end.
Proof.
  run_pipeline.
  repeat next_pass; auto.
Qed.


Section Cycles.

(** Modelled from the spec: what [reorderGlobals] (GlobalSorting.cpp is not
    among the sources) does with a cycle: it "fails if a cycle among globals
    is detected ... reported as a diagnostic". *)
Variable hasDependencyCycle : ShaderModule → Prop.
Hypothesis reorderGlobals_rejects_cycles :
  ∀ m, hasDependencyCycle m → ∃ failure, (reorderGlobals m).1 = Some failure.

(** C1. [staticCheck] runs parse, reorderGlobals, typeCheck and
    validateAttributes in this order and stops at the first pass that
    fails, returning that pass's failure; the phases it has timed are the
    passes up to and including the failing one.  When the parsed globals
    have a dependency cycle the result is the failure of reorderGlobals and
    neither typeCheck nor validateAttributes has run.  A failure carries no
    module: the caller gets a checked AST only from a success. *)
Theorem staticCheck_fail_fast wgsl sourceMap configuration st :
  let m0 := makeShaderModule wgsl configuration in
  let out := (staticCheck wgsl sourceMap configuration st).1 in
  let ran := phaseTimes (staticCheck wgsl sourceMap configuration st).2 in
  (ran `prefix_of` checkPasses)
  ∧ (∀ f m1, parse m0 = (Some f, m1) → out = Returned (inr f) ∧ ran = ["parse"])
  ∧ (∀ m1 f m2, parse m0 = (None, m1) → reorderGlobals m1 = (Some f, m2) →
       out = Returned (inr f) ∧ ran = ["parse"; "reorderGlobals"])
  ∧ (∀ m1 m2 f m3, parse m0 = (None, m1) → reorderGlobals m1 = (None, m2) →
       typeCheck m2 = (Some f, m3) →
       out = Returned (inr f) ∧ ran = ["parse"; "reorderGlobals"; "typeCheck"])
  ∧ (∀ m1 m2 m3 f m4, parse m0 = (None, m1) → reorderGlobals m1 = (None, m2) →
       typeCheck m2 = (None, m3) → validateAttributes m3 = (Some f, m4) →
       out = Returned (inr f) ∧ ran = checkPasses)
  ∧ (∀ m1 m2 m3 m4, parse m0 = (None, m1) → reorderGlobals m1 = (None, m2) →
       typeCheck m2 = (None, m3) → validateAttributes m3 = (None, m4) →
       out = Returned (inl (mkSuccessfulCheck [] m4)) ∧ ran = checkPasses)
  ∧ (∀ m1, parse m0 = (None, m1) → hasDependencyCycle m1 →
       ∃ f, (reorderGlobals m1).1 = Some f ∧ out = Returned (inr f) ∧
            ("typeCheck" ∉ ran) ∧ ("validateAttributes" ∉ ran))
  ∧ (checkedAST out = None ↔ ∃ f, out = Returned (inr f)).
Proof.
  intros m0 out ran.
  pose proof (staticCheck_run wgsl sourceMap configuration st) as H.
  cbv zeta in H. fold m0 out ran in H. clearbody out ran.
  assert (Hcyc : ∀ m1 m2, hasDependencyCycle m1 → reorderGlobals m1 ≠ (None, m2)).
  { intros m1 m2 [f Hf]%reorderGlobals_rejects_cycles E. by rewrite E in Hf. }
  destruct (parse m0) as [[f1|] m1] eqn:E1;
    [| destruct (reorderGlobals m1) as [[f2|] m2] eqn:E2;
       [| destruct (typeCheck m2) as [[f3|] m3] eqn:E3;
          [| destruct (validateAttributes m3) as [[f4|] m4] eqn:E4]]];
    destruct H as (-> & -> & _);
    (split; [first [apply prefix_take | reflexivity] |]); cbn.
  all: split_and!.
  all: try (intros; same_call; done).
  all: try naive_solver.
  all: intros ? ? Hcycle; simplify_eq.
  all: try by destruct (Hcyc _ _ Hcycle E2).
  exists f2. rewrite E2. split_and!; [done..| |]; set_solver.
Qed.

End Cycles.

(** [staticCheck] returns what the pipeline of section 4.1 returns when no
    pass has a warning to report: the failure of the first failing pass as
    that pass reported it, or the module the last pass left. *)
Lemma staticCheck_refines_spec wgsl sourceMap configuration st :
  (staticCheck wgsl sourceMap configuration st).1 =
  Returned (staticCheck_spec (λ _ _, []) wgsl configuration).
Proof.
  pose proof (staticCheck_run wgsl sourceMap configuration st) as H.
  cbv zeta in H. unfold staticCheck_spec.
  by repeat case_match; destruct H as (-> & _).
Qed.


(** C9. The source map handed to [staticCheck] has no influence: with any
    two source maps, present or absent, the call returns the same value
    and leaves the same state, and a diagnostic it returns is the one the
    failing pass reported, not a remapped one. *)
Theorem staticCheck_ignores_sourceMap wgsl configuration
    (sourceMap1 sourceMap2 : option SourceMap) st :
  staticCheck wgsl sourceMap1 configuration st =
  staticCheck wgsl sourceMap2 configuration st
  ∧ (staticCheck wgsl sourceMap1 configuration st).1 =
    Returned (staticCheck_spec (λ _ _, []) wgsl configuration).
Proof.
  split; [reflexivity|].
  apply staticCheck_refines_spec.
Qed.

(** ** The prepare pipeline *)

Ltac next_lowering :=
  match goal with
  | |- context [buildCallGraph ?l ?e ?x] =>
      destruct (buildCallGraph l e x) as [[?callGraph ?entryPoints] ?m] eqn:?Hbuild
  | |- context [mangleNames ?c ?e ?x] =>
      destruct (mangleNames c e x) as [[?callGraph ?entryPoints] ?m] eqn:?Hmangle
  | |- context [rewritePointers ?c ?x] =>
      destruct (rewritePointers c x) as [?callGraph ?m] eqn:?Hpointers
  | |- context [insertBoundsChecks ?x] =>
      destruct (insertBoundsChecks x) as [[] ?m] eqn:?Hbounds
  | |- context [rewriteEntryPoints ?c ?x] =>
      destruct (rewriteEntryPoints c x) as [?callGraph ?m] eqn:?Hentry
  | |- context [rewriteGlobalVariables ?c ?l ?x] =>
      destruct (rewriteGlobalVariables c l x) as [[[?e|] ?callGraph] ?m] eqn:?Hglobals
  end; tidy.

(** What [prepare] returns and the state it leaves, in terms of the six
    passes. *)
Lemma prepare_run ast pipelineLayouts st :
  let '((cg1, eps1), m1) := buildCallGraph pipelineLayouts ∅ ast in
  let '((cg2, eps2), m2) := mangleNames cg1 eps1 m1 in
  let '(cg3, m3) := rewritePointers cg2 m2 in
  let '(_, m4) := insertBoundsChecks m3 in
  let '(cg5, m5) := rewriteEntryPoints cg3 m4 in
  let '((failure, cg6), m6) := rewriteGlobalVariables cg5 pipelineLayouts m5 in
  let h := fresh (liveScopes st) in
  let out := (prepare ast pipelineLayouts st).1 in
  let st' := (prepare ast pipelineLayouts st).2 in
  shaderModule st' = m6 ∧
  phaseTimes st' = (preparePasses ++ ["prepare total"])%list ∧
  scopeLocal st' = None ∧
  match failure with
  | Some e =>
      out = Returned (inr e) ∧ liveScopes st' = ({[h]} ∪ liveScopes st) ∖ {[h]}
  | None =>
      out = Returned (inl (mkPrepareResult cg6 eps2 (Some h))) ∧
      liveScopes st' = {[h]} ∪ liveScopes st
  end.
Proof.
  run_pipeline.
  repeat next_lowering; auto.
Qed.

(** C2. [prepare] runs buildCallGraph, mangleNames, rewritePointers,
    insertBoundsChecks, rewriteEntryPoints and rewriteGlobalVariables, each
    once and in this order (the enclosing "prepare total" timer finishes
    last), and it returns an [Error] exactly when rewriteGlobalVariables
    reports one; otherwise it returns a [PrepareResult] with the call graph
    and the entry-point map the passes have produced. *)
Theorem prepare_fails_only_in_last_pass ast pipelineLayouts st :
  let '((cg1, eps1), m1) := buildCallGraph pipelineLayouts ∅ ast in
  let '((cg2, eps2), m2) := mangleNames cg1 eps1 m1 in
  let '(cg3, m3) := rewritePointers cg2 m2 in
  let '(_, m4) := insertBoundsChecks m3 in
  let '(cg5, m5) := rewriteEntryPoints cg3 m4 in
  let '((failure, cg6), m6) := rewriteGlobalVariables cg5 pipelineLayouts m5 in
  let out := (prepare ast pipelineLayouts st).1 in
  let st' := (prepare ast pipelineLayouts st).2 in
  phaseTimes st' = (preparePasses ++ ["prepare total"])%list
  ∧ shaderModule st' = m6
  ∧ (∀ e, out = Returned (inr e) ↔ failure = Some e)
  ∧ (failure = None ↔
     ∃ scope, out = Returned (inl (mkPrepareResult cg6 eps2 scope))).
Proof.
  pose proof (prepare_run ast pipelineLayouts st) as H.
  repeat case_match; simplify_eq; cbv zeta in *.
  all: destruct H as (-> & -> & _ & -> & _); split_and!; try done.
  all: naive_solver.
Qed.

(** C5. The overload that takes one entry-point name and one optional
    layout does what the general [prepare] does with the map that has this
    one entry. *)
Theorem prepare_entryPoint_is_prepare ast entryPointName
    (pipelineLayout : option PipelineLayout) st :
  prepare_entryPoint ast entryPointName pipelineLayout st =
  prepare ast {[entryPointName := pipelineLayout]} st.
Proof.
  unfold prepare_entryPoint, prepare, HashMap_add.
  by rewrite lookup_empty, insert_empty.
Qed.


End Pipelines.

(** ** Constant evaluation *)

Section Evaluation.
Context {ConstantValue : Type} (emptyValue : ConstantValue).

Ltac run_evaluate :=
  unfold evaluate, body, ASSERT, downcast_identifier, HashMap_get, is_IdentifierExpression,
    constantValue, setConstantValue, mbind, mret, Stmt_bind, Stmt_ret, bind, ret,
    gets, modify, return_, abort;
  cbn.

(** The three ways a call of [evaluate] can go. *)
Lemma evaluate_cached expression constants v :
  constantValue expression = Some v →
  evaluate emptyValue expression constants = (Returned v, mkEvalState expression []).
Proof. run_evaluate. by intros ->. Qed.

Lemma evaluate_identifier expression constants identifier :
  constantValue expression = None →
  kind expression = IdentifierExpression identifier →
  let v := default emptyValue (constants !! identifier) in
  evaluate emptyValue expression constants =
    (Returned v, mkEvalState (setConstantValue v expression) [identifier]).
Proof. run_evaluate. destruct expression as [k cached]; cbn. by intros -> ->. Qed.

Lemma evaluate_other expression constants nodeKind :
  constantValue expression = None →
  kind expression = OtherExpression nodeKind →
  evaluate emptyValue expression constants = (Aborted, mkEvalState expression []).
Proof. run_evaluate. destruct expression as [k cached]; cbn. by intros -> ->. Qed.

(** Whatever [evaluate] returns is then cached on the node. *)
Lemma evaluate_caches expression constants v st :
  evaluate emptyValue expression constants = (Returned v, st) →
  constantValue (node st) = Some v.
Proof.
  destruct (constantValue expression) as [cached|] eqn:Hcached;
    [| destruct (kind expression) as [identifier|nodeKind] eqn:Hkind].
  - rewrite (evaluate_cached _ _ _ Hcached). by intros [= <- <-].
  - rewrite (evaluate_identifier _ _ _ Hcached Hkind). by intros [= <- <-].
  - by rewrite (evaluate_other _ _ _ Hcached Hkind).
Qed.

(** C3. [evaluate] memoizes.  A node that carries a cached value yields
    that value, stays as it is, and no key is looked up.  Hence when a call
    of [evaluate] has returned, a second call on the same node, with any
    constants map, returns the same value and looks nothing up.  A call
    returns whenever the node is cached or is an identifier. *)
Theorem evaluate_memoizes expression constants :
  (∀ v, constantValue expression = Some v →
     evaluate emptyValue expression constants = (Returned v, mkEvalState expression []))
  ∧ (∀ v st, evaluate emptyValue expression constants = (Returned v, st) →
       ∀ constants',
         evaluate emptyValue (node st) constants' = (Returned v, mkEvalState (node st) []))
  ∧ (is_Some (constantValue expression) ∨ is_IdentifierExpression expression = true →
       ∃ v st, evaluate emptyValue expression constants = (Returned v, st)).
Proof.
  split_and!.
  - intros v. apply evaluate_cached.
  - intros v st Hfirst constants'.
    apply evaluate_cached. by eapply evaluate_caches.
  - intros Hok.
    destruct (constantValue expression) as [cached|] eqn:Hcached.
    { eexists _, _. by apply evaluate_cached. }
    destruct Hok as [[? [=]]|Hident].
    unfold is_IdentifierExpression in Hident.
    destruct (kind expression) as [identifier|] eqn:Hkind; [|done].
    eexists _, _. by apply evaluate_identifier.
Qed.

(** C6. [evaluate] fails its assertion exactly on a node that has no
    cached value and is not an identifier; it then stops before any lookup
    and leaves the node alone, and nothing but the abort comes out of the
    call.  On an un-cached identifier it returns a value. *)
Theorem evaluate_aborts_iff_invariant_broken expression constants :
  let out := (evaluate emptyValue expression constants).1 in
  let st := (evaluate emptyValue expression constants).2 in
  (out = Aborted ↔
     constantValue expression = None ∧ is_IdentifierExpression expression = false)
  ∧ (out = Aborted → st = mkEvalState expression [])
  ∧ (∀ identifier,
       constantValue expression = None →
       kind expression = IdentifierExpression identifier →
       ∃ v, out = Returned v).
Proof.
  intros out st. subst out st.
  unfold is_IdentifierExpression.
  destruct (constantValue expression) as [cached|] eqn:Hcached;
    [| destruct (kind expression) as [identifier|nodeKind] eqn:Hkind].
  - rewrite (evaluate_cached _ constants _ Hcached). naive_solver.
  - rewrite (evaluate_identifier _ constants _ Hcached Hkind). naive_solver.
  - rewrite (evaluate_other _ constants _ Hcached Hkind). naive_solver.
Qed.

(** C10. On a node without a cached value that is an identifier whose name
    the constants map does not have, [evaluate] returns the default
    [ConstantValue], after one lookup of that name, and the node now caches
    this value. *)
Theorem evaluate_absent_identifier expression constants identifier :
  constantValue expression = None →
  kind expression = IdentifierExpression identifier →
  constants !! identifier = None →
  evaluate emptyValue expression constants =
    (Returned emptyValue,
     mkEvalState (mkExpression (IdentifierExpression identifier) (Some emptyValue))
                 [identifier]).
Proof.
  intros Hcached Hkind Habsent.
  rewrite (evaluate_identifier _ _ _ Hcached Hkind), Habsent.
  unfold setConstantValue. by rewrite Hkind.
Qed.

End Evaluation.

(** ** The theorems at work on concrete inputs *)

(** Two globals that define each other are rejected by the reorder pass;
    the type checker is never reached. *)
Lemma staticCheck_fail_fast_witness :
  (∀ m, Demo.cyclic m = true →
        ∃ failure, (reorderGlobals (Passes := Demo.passes) m).1 = Some failure)
  ∧ (staticCheck (P := Demo.passes) "const a = b; const b = a;" None tt Demo.idle).1
      = Returned (inr (mkFailedCheck ["cyclic dependency"]))
  ∧ "typeCheck" ∉
      phaseTimes (staticCheck (P := Demo.passes) "const a = b; const b = a;" None tt Demo.idle).2.
Proof.
  assert (Hrejects : ∀ m, Demo.cyclic m = true →
            ∃ failure, (reorderGlobals (Passes := Demo.passes) m).1 = Some failure).
  { intros m Hm. cbn. unfold Demo.rejectCycles. rewrite Hm. by eexists. }
  split; [exact Hrejects|].
  pose proof (staticCheck_fail_fast (P := Demo.passes) (λ m, Demo.cyclic m = true) Hrejects
                "const a = b; const b = a;" None tt Demo.idle) as H.
  cbv zeta in H. destruct H as (_ & _ & _ & _ & _ & _ & Hcycle & _).
  destruct (Hcycle (Demo.mkModule "const a = b; const b = a;" [("a", ["b"]); ("b", ["a"])] false)
              eq_refl eq_refl) as (f & Hf & Hout & Hnot & _).
  vm_compute in Hf. injection Hf as <-.
  split; [exact Hout | exact Hnot].
Defined.



(** Constant values are numbers here, the default being [0]. *)
Lemma evaluate_memoizes_witness :
  let expression := mkExpression (IdentifierExpression "n") (None : option nat) in
  let cached := mkExpression (IdentifierExpression "n") (Some 7) in
  evaluate 0 expression {["n" := 7]} = (Returned 7, mkEvalState cached ["n"])
  ∧ evaluate 0 cached ∅ = (Returned 7, mkEvalState cached []).
Proof.
  intros expression cached.
  assert (Hfirst : evaluate 0 expression {["n" := 7]} = (Returned 7, mkEvalState cached ["n"]))
    by (vm_compute; reflexivity).
  split; [exact Hfirst|].
  exact (proj1 (proj2 (evaluate_memoizes 0 expression {["n" := 7]})) 7 _ Hfirst ∅).
Defined.

Lemma evaluate_aborts_iff_invariant_broken_witness :
  (evaluate 0 (mkExpression (OtherExpression "BinaryExpression") None) {["n" := 7]}).1
    = Aborted.
Proof.
  pose proof (evaluate_aborts_iff_invariant_broken 0
                (mkExpression (OtherExpression "BinaryExpression") None) {["n" := 7]}) as H.
  cbv zeta in H. destruct H as (Habort & _).
  apply Habort. split; reflexivity.
Defined.

Lemma evaluate_absent_identifier_witness :
  evaluate 0 (mkExpression (IdentifierExpression "n") None) {["m" := 5]}
    = (Returned 0, mkEvalState (mkExpression (IdentifierExpression "n") (Some 0)) ["n"]).
Proof.
  apply (evaluate_absent_identifier 0 (mkExpression (IdentifierExpression "n") None)
           {["m" := 5]} "n"); reflexivity.
Defined.

(** * Further properties of the orchestration layer *)

Local Open Scope list_scope.

Section Logs.
Context `{P : Passes}.

Lemma dataLog_dumpIf switch message st :
  dataLog (dumpIf switch message st) =
  dataLog st ++ (if switch (shaderModule st) then [ASTDump message (shaderModule st)] else []).
Proof. unfold dumpIf. destruct (switch _); cbn; by rewrite ?app_nil_r. Qed.

Create Rewrite HintDb wgsl_log.
Hint Rewrite shaderModule_dumpIf phaseTimes_dumpIf scopeLocal_dumpIf liveScopes_dumpIf
  dataLog_dumpIf : wgsl_log.

#[local] Arguments dumpIf : simpl never.

Ltac tidy_log := repeat (progress (cbn; autorewrite with wgsl_log)).

Ltac run_logged :=
  unfold staticCheck, prepare, prepareImpl,
    CHECK_PASS, RUN_PASS, RUN_PASS_WITH_RESULT, PhaseTimer, checking, onModule, invoke,
    dumpASTBetweenEachPassIfNeeded, dumpASTAtEndIfNeeded, logPhaseTimes,
    constructCompilationScope, moveCompilationScope, destroyCompilationScope,
    body, lambda, scoped, mbind, mret, Stmt_bind, Stmt_ret, bind, ret,
    gets, modify, return_;
  tidy_log.

Ltac split_pass :=
  match goal with
  | |- context [parse ?x] => destruct (parse x) as [[?f|] ?m]
  | |- context [reorderGlobals ?x] => destruct (reorderGlobals x) as [[?f|] ?m]
  | |- context [typeCheck ?x] => destruct (typeCheck x) as [[?f|] ?m]
  | |- context [validateAttributes ?x] => destruct (validateAttributes x) as [[?f|] ?m]
  | |- context [buildCallGraph ?l ?e ?x] =>
      destruct (buildCallGraph l e x) as [[?callGraph ?entryPoints] ?m]
  | |- context [mangleNames ?c ?e ?x] =>
      destruct (mangleNames c e x) as [[?callGraph ?entryPoints] ?m]
  | |- context [rewritePointers ?c ?x] => destruct (rewritePointers c x) as [?callGraph ?m]
  | |- context [insertBoundsChecks ?x] => destruct (insertBoundsChecks x) as [[] ?m]
  | |- context [rewriteEntryPoints ?c ?x] => destruct (rewriteEntryPoints c x) as [?callGraph ?m]
  | |- context [rewriteGlobalVariables ?c ?l ?x] =>
      destruct (rewriteGlobalVariables c l x) as [[[?e|] ?callGraph] ?m]
  end; tidy_log.

Ltac same_log := unfold dumpsBefore, dumpAtEnd; cbn; by rewrite ?app_nil_r, <- ?app_assoc.

(** X1. What [staticCheck] writes to the debug log: for every pass it
    runs, in order, one dump of the module as that pass is about to
    receive it, if the switch is on for that module, and nothing else; in
    particular it never logs its phase times.  The passes dumped are the
    passes timed.  The scoped state is left alone. *)
Theorem staticCheck_log wgsl sourceMap configuration st :
  let m0 := makeShaderModule wgsl configuration in
  let st' := (staticCheck wgsl sourceMap configuration st).2 in
  let steps :=
    match parse m0 with
    | (Some _, _) => [("parse", m0)]
    | (None, m1) =>
      ("parse", m0) ::
      match reorderGlobals m1 with
      | (Some _, _) => [("reorderGlobals", m1)]
      | (None, m2) =>
        ("reorderGlobals", m1) ::
        match typeCheck m2 with
        | (Some _, _) => [("typeCheck", m2)]
        | (None, m3) => [("typeCheck", m2); ("validateAttributes", m3)]
        end
      end
    end in
  dataLog st' = dataLog st ++ dumpsBefore steps
  ∧ steps.*1 = phaseTimes st'
  ∧ liveScopes st' = liveScopes st
  ∧ scopeLocal st' = scopeLocal st.
Proof.
  run_logged.
  repeat split_pass; split_and!; try done; same_log.
Qed.

(** X2. What [prepare] writes to the debug log: one dump before each of
    the six passes whose switch is on, then, only when the global-variable
    rewrite has succeeded, the end-of-pipeline dump, and last, on the
    failure path as well, the phase times. *)
Theorem prepare_log ast pipelineLayouts st :
  let '((cg1, eps1), m1) := buildCallGraph pipelineLayouts ∅ ast in
  let '((cg2, eps2), m2) := mangleNames cg1 eps1 m1 in
  let '(cg3, m3) := rewritePointers cg2 m2 in
  let '(_, m4) := insertBoundsChecks m3 in
  let '(cg5, m5) := rewriteEntryPoints cg3 m4 in
  let '((failure, cg6), m6) := rewriteGlobalVariables cg5 pipelineLayouts m5 in
  let st' := (prepare ast pipelineLayouts st).2 in
  dataLog st' =
    dataLog st
    ++ dumpsBefore [("buildCallGraph", ast); ("mangleNames", m1); ("rewritePointers", m2);
                    ("insertBoundsChecks", m3); ("rewriteEntryPoints", m4);
                    ("rewriteGlobalVariables", m5)]
    ++ (if failure is Some _ then [] else dumpAtEnd m6)
    ++ [PhaseTimesDump (preparePasses ++ ["prepare total"])].
Proof.
  run_logged.
  repeat split_pass; same_log.
Qed.

End Logs.

Section EvaluationFrame.
Context {ConstantValue : Type} (emptyValue : ConstantValue).

(** X4. On a node without a cached value that is an identifier the
    constants map binds, [evaluate] returns the bound value after one
    lookup of that name, and the node now caches it. *)
Theorem evaluate_bound_identifier expression
    (constants : gmap string ConstantValue) identifier value :
  constantValue expression = None →
  kind expression = IdentifierExpression identifier →
  constants !! identifier = Some value →
  evaluate emptyValue expression constants =
    (Returned value,
     mkEvalState (mkExpression (IdentifierExpression identifier) (Some value)) [identifier]).
Proof.
  intros Hcached Hkind Hbound.
  rewrite (evaluate_identifier _ _ _ _ Hcached Hkind), Hbound.
  unfold setConstantValue. by rewrite Hkind.
Qed.

(** X5. [evaluate] reads the constants map at most at the node's own name,
    and only through [get]: two maps that give the same value there, a
    missing entry counting as the default value, give the same result and
    leave the same node.  A missing constant cannot be told from one bound
    to the default. *)
Theorem evaluate_reads_own_entry_only expression
    (constants1 constants2 : gmap string ConstantValue) :
  (∀ identifier,
     kind expression = IdentifierExpression identifier →
     default emptyValue (constants1 !! identifier) =
     default emptyValue (constants2 !! identifier)) →
  evaluate emptyValue expression constants1 = evaluate emptyValue expression constants2.
Proof.
  intros Hsame.
  destruct (constantValue expression) as [cached|] eqn:Hcached;
    [| destruct (kind expression) as [identifier|nodeKind] eqn:Hkind].
  - by rewrite !(evaluate_cached _ _ _ _ Hcached).
  - rewrite !(evaluate_identifier _ _ _ _ Hcached Hkind). cbv zeta.
    by rewrite (Hsame identifier).
  - by rewrite !(evaluate_other _ _ _ _ Hcached Hkind).
Qed.

(** X6. What [evaluate] leaves of the node: its kind never changes; a
    value already cached is never replaced; the cache is written only by
    a call that looked the node's own name up, and then holds the value
    returned; and there is at most that one lookup. *)
Theorem evaluate_writes_only_the_cache expression (constants : gmap string ConstantValue) :
  let out := (evaluate emptyValue expression constants).1 in
  let st := (evaluate emptyValue expression constants).2 in
  kind (node st) = kind expression
  ∧ (is_Some (constantValue expression) → node st = expression ∧ lookups st = [])
  ∧ (node st = expression ∧ lookups st = []
     ∨ ∃ identifier value,
         kind expression = IdentifierExpression identifier ∧
         lookups st = [identifier] ∧
         out = Returned value ∧
         node st = mkExpression (kind expression) (Some value)).
Proof.
  destruct (constantValue expression) as [cached|] eqn:Hcached;
    [| destruct (kind expression) as [identifier|nodeKind] eqn:Hkind].
  - rewrite (evaluate_cached _ _ constants _ Hcached). cbn. naive_solver.
  - rewrite (evaluate_identifier _ _ constants _ Hcached Hkind). cbn.
    split_and!; [done | by intros [? [=]] |].
    right. eexists _, _. split_and!; try done. unfold setConstantValue. by rewrite Hkind.
  - rewrite (evaluate_other _ _ constants _ Hcached Hkind). cbn.
    split_and!; [done | by intros [? [=]] | by left].
Qed.

End EvaluationFrame.

(** * Properties of the History API *)

Module DOMHistoryProperties.
Import DOMHistory.

Section HistoryProperties.
Context `{PF : Platform}.

Ltac run_history :=
  unfold back, forward, back_document, forward_document;
  unfold stateObjectAdded, DOMHistory.length, scrollRestoration, setScrollRestoration, state,
    cachedState, go, go_document,
    urlForState, body, when_, deref, checked,
    mbind, mret, Stmt_bind, Stmt_ret, bind, ret, gets, modify, return_, abort;
  cbn.

(** Splits on the outermost test that stands in the way. *)
Ltac branch :=
  match goal with
  | |- context [match ?x with _ => _ end] =>
      lazymatch x with
      | context [match _ with _ => _ end] => fail
      | _ => destruct x eqn:?
      end
  end; cbn in *.

Ltac decided :=
  repeat match goal with
         | H : bool_decide _ = true |- _ => apply bool_decide_eq_true in H
         | H : bool_decide _ = false |- _ => apply bool_decide_eq_false in H
         end.

(** X7. Every entry point that can raise refuses a document that is not
    fully active, or a [History] without a frame, with the same
    SecurityError; it schedules nothing and changes no state, except that
    [stateObjectAdded] has dropped the cached state of the object before
    it looks at the document. *)
Theorem inactive_document_is_refused this frame now data urlString stateObjectType
    restoration canNavigate distance w :
  isDocumentFullyActive frame = false →
  DOMHistory.length frame w = (Returned (inl documentNotFullyActive), w)
  ∧ scrollRestoration frame w = (Returned (inl documentNotFullyActive), w)
  ∧ setScrollRestoration frame restoration w = (Returned (inl documentNotFullyActive), w)
  ∧ state this frame w = (Returned (inl documentNotFullyActive), w)
  ∧ go frame distance w = (Returned (inl documentNotFullyActive), w)
  ∧ go_document frame canNavigate distance w = (Returned (inl documentNotFullyActive), w)
  ∧ stateObjectAdded this frame now data urlString stateObjectType w =
      (Returned (inl documentNotFullyActive),
       set_cachedState (delete this (m_cachedState w)) w).
Proof.
  intros Hinactive. run_history. by rewrite Hinactive.
Qed.

(** X8. Scroll restoration round trip.  On a fully active document
    [setScrollRestoration] succeeds; a following [scrollRestoration] reads
    back the mode just set when the frame has a current history item, and
    [Auto] when it has none, the mode set being lost.  The item's state
    object is not touched and reading changes nothing. *)
Theorem scrollRestoration_round_trip frame restoration w :
  isDocumentFullyActive frame = true →
  let w1 := (setScrollRestoration frame restoration w).2 in
  (setScrollRestoration frame restoration w).1 = Returned (inr tt)
  ∧ scrollRestoration frame w1 =
      (Returned (inr (if currentItem w is Some _ then restoration else Auto)), w1)
  ∧ stateObject <$> currentItem w1 = stateObject <$> currentItem w
  ∧ (currentItem w = None → w1 = w).
Proof.
  intros Hactive. run_history. rewrite Hactive. cbn.
  destruct (currentItem w) as [item|] eqn:Hitem; cbn.
  - by destruct restoration.
  - by rewrite Hitem.
Qed.

(** The state a successful [state] leaves. *)
Lemma state_active this frame w :
  isDocumentFullyActive frame = true →
  state this frame w =
    (Returned (inr (stateInternal frame w)),
     set_lastStateObjectRequested
       (match stateInternal frame w with
        | Some value => <[this := value]> (m_lastStateObjectRequested w)
        | None => delete this (m_lastStateObjectRequested w)
        end) w).
Proof.
  intros Hactive. run_history. rewrite Hactive. cbn.
  destruct (stateInternal frame w); cbn; by rewrite ?lookup_insert_eq, ?lookup_delete_eq.
Qed.

Lemma cachedState_unchanged this frame w :
  stateChanged this frame w = false →
  cachedState this frame w = (Returned (m_cachedState w !! this), w).
Proof. intros Hsame. run_history. by rewrite Hsame, andb_false_r. Qed.

(** X9. [cachedState] hands out the cached value only while the frame's
    state object is still the one [state] last handed out; otherwise the
    cache is dropped.  Right after a successful [state], which returns the
    frame's current state object, nothing has changed and the cache is
    kept. *)
Theorem cachedState_follows_state this frame w :
  (cachedState this frame w).1 =
    Returned (if stateChanged this frame w then None else m_cachedState w !! this)
  ∧ (stateChanged this frame w = true → m_cachedState (cachedState this frame w).2 !! this = None)
  ∧ (stateChanged this frame w = false → (cachedState this frame w).2 = w)
  ∧ (isDocumentFullyActive frame = true →
     let w1 := (state this frame w).2 in
     (state this frame w).1 = Returned (inr (stateInternal frame w))
     ∧ stateChanged this frame w1 = false
     ∧ cachedState this frame w1 = (Returned (m_cachedState w !! this), w1)).
Proof.
  split_and!.
  - destruct (stateChanged this frame w) eqn:Hchanged;
      [| by rewrite cachedState_unchanged].
    run_history. rewrite Hchanged, andb_true_r.
    case_bool_decide as Hcached; cbn.
    + by rewrite lookup_delete_eq.
    + by destruct (m_cachedState w !! this) as [cached|]; [destruct Hcached|].
  - intros Hchanged. run_history. rewrite Hchanged, andb_true_r.
    case_bool_decide as Hcached; cbn.
    + by rewrite lookup_delete_eq.
    + by destruct (m_cachedState w !! this) as [cached|]; [destruct Hcached|].
  - intros Hsame. by rewrite cachedState_unchanged.
  - intros Hactive. cbv zeta. rewrite (state_active _ _ _ Hactive). cbn.
    assert (Hunchanged : stateChanged this frame
              (set_lastStateObjectRequested
                 (match stateInternal frame w with
                  | Some value => <[this := value]> (m_lastStateObjectRequested w)
                  | None => delete this (m_lastStateObjectRequested w)
                  end) w) = false).
    { unfold stateChanged, samePointer, stateInternal. cbn.
      destruct frame as [f|]; [|done].
      destruct (currentItem w) as [[restore [value|]]|]; cbn;
        rewrite ?lookup_insert_eq, ?lookup_delete_eq; by rewrite bool_decide_eq_true_2. }
    split_and!; [done..|].
    by rewrite (cachedState_unchanged _ _ _ Hunchanged).
Qed.

(** X10. On a fully active document [back] and [forward] schedule one
    history navigation each, of distance -1 and 1, and nothing else.  The
    variants that are handed a document schedule nothing when that
    document may not navigate the frame, and still report success. *)
Theorem back_and_forward_schedule_one_navigation frame distance w :
  isDocumentFullyActive frame = true →
  back frame w = (Returned (inr tt), emit (scheduleHistoryNavigation (-1)) w)
  ∧ forward frame w = (Returned (inr tt), emit (scheduleHistoryNavigation 1) w)
  ∧ go_document frame true distance w = go frame distance w
  ∧ go_document frame false distance w = (Returned (inr tt), w)
  ∧ back_document frame false w = (Returned (inr tt), w)
  ∧ forward_document frame false w = (Returned (inr tt), w).
Proof.
  intros Hactive. run_history. rewrite Hactive. cbn. done.
Qed.

(** X11. A [pushState] or [replaceState] that raises an exception has had
    no effect beyond dropping the object's cached state and, possibly,
    starting a new rate window: no call went out to the document or the
    loader, the usage counters are what they were, and so are the current
    item and the state object last handed out. *)
Theorem stateObjectAdded_failure_is_clean this frame now data urlString stateObjectType w e :
  let out := (stateObjectAdded this frame now data urlString stateObjectType w).1 in
  let w' := (stateObjectAdded this frame now data urlString stateObjectType w).2 in
  out = Returned (inl e) →
  events w' = events w
  ∧ m_totalStateObjectUsage w' = m_totalStateObjectUsage w
  ∧ m_mostRecentStateObjectUsage w' = m_mostRecentStateObjectUsage w
  ∧ currentItem w' = currentItem w
  ∧ m_lastStateObjectRequested w' = m_lastStateObjectRequested w
  ∧ m_cachedState w' = delete this (m_cachedState w).
Proof.
  run_history. repeat branch; done.
Qed.

(** Reading a counter after a write. *)
Lemma counter_insert (m : gmap nat N) object value other :
  counter (<[object := value]> m) other =
  if decide (object = other) then value else counter m other.
Proof. unfold counter. rewrite lookup_insert. by case_decide. Qed.

Ltac counters :=
  decided;
  repeat match goal with
         | H : context [counter (<[_ := _]> _) _] |- _ => rewrite counter_insert in H
         | |- context [counter (<[_ := _]> _) _] => rewrite counter_insert
         | H : context [decide (?a = ?b)] |- _ => destruct (decide (a = b))
         | |- context [decide (?a = ?b)] => destruct (decide (a = b))
         end;
  simplify_eq;
  unfold totalStateObjectPayloadLimit, perStateObjectTimeSpanLimit in *.

(** X12. The payload quota.  A [pushState] or [replaceState] that succeeds
    for a frame whose page has a main-frame [History] leaves that
    object's total state-object usage at 64MB (0x4000000 bytes) or less,
    whatever it was before; and whatever the outcome of a call, totals
    that were within the quota stay within it. *)
Theorem stateObjectAdded_keeps_quota this frame now data urlString stateObjectType w :
  let out := (stateObjectAdded this frame now data urlString stateObjectType w).1 in
  let w' := (stateObjectAdded this frame now data urlString stateObjectType w).2 in
  (∀ f p main,
     frame = Some f → page f = Some p → mainFrame_history p = Some main →
     out = Returned (inr tt) →
     (counter (m_totalStateObjectUsage w') main ≤ 0x4000000)%N)
  ∧ ((∀ h, (counter (m_totalStateObjectUsage w) h ≤ 0x4000000)%N) →
     ∀ h, (counter (m_totalStateObjectUsage w') h ≤ 0x4000000)%N).
Proof.
  run_history. repeat branch; split; intros; simplify_eq; try done.
  all: counters; try done; lia.
Qed.

(** X13. The rate limit.  A call that succeeds for a frame with a main
    [History] found fewer than 100 state objects added in the current time
    span, a span that is over counting as empty and starting anew at the
    time of the call, and it adds one to that count.  Whatever the
    outcome, counts of at most 100 stay at most 100. *)
Theorem stateObjectAdded_rate_limit this frame now data urlString stateObjectType w :
  let out := (stateObjectAdded this frame now data urlString stateObjectType w).1 in
  let w' := (stateObjectAdded this frame now data urlString stateObjectType w).2 in
  (∀ f p main,
     frame = Some f → page f = Some p → mainFrame_history p = Some main →
     out = Returned (inr tt) →
     let start := default WallTime_default (m_currentStateObjectTimeSpanStart w !! main) in
     let over := timeSpanIsOver now start in
     let before :=
       if over then 0%N else counter (m_currentStateObjectTimeSpanObjectsAdded w) main in
     (before < 100)%N
     ∧ counter (m_currentStateObjectTimeSpanObjectsAdded w') main = (before + 1)%N
     ∧ m_currentStateObjectTimeSpanStart w' !! main =
         (if over then Some now else m_currentStateObjectTimeSpanStart w !! main))
  ∧ ((∀ h, (counter (m_currentStateObjectTimeSpanObjectsAdded w) h ≤ 100)%N) →
     ∀ h, (counter (m_currentStateObjectTimeSpanObjectsAdded w') h ≤ 100)%N).
Proof.
  run_history. repeat branch; split; intros; simplify_eq; try done.
  all: cbv zeta; repeat case_match; simplify_eq; rewrite ?lookup_insert_eq.
  all: counters; try done.
  all: try (split_and!; try done).
  all: try (rewrite N.mod_small by lia).
  all: try lia.
  all: try (match goal with H : ∀ h, _ |- context [counter _ ?h] => specialize (H h) end;
            try rewrite N.mod_small by lia; lia).
Qed.

(** What a successful call charges. *)
Lemma stateObjectAdded_charges this frame now data urlString stateObjectType w f p main :
  let out := (stateObjectAdded this frame now data urlString stateObjectType w).1 in
  let w' := (stateObjectAdded this frame now data urlString stateObjectType w).2 in
  frame = Some f → page f = Some p → mainFrame_history p = Some main →
  out = Returned (inr tt) →
  let payload := payloadOf (requestedURL f urlString) data in
  Z.of_N (counter (m_totalStateObjectUsage w') main) =
    (Z.of_N (counter (m_totalStateObjectUsage w) main)
     - (if stateObjectType is Replace
        then Z.of_N (counter (m_mostRecentStateObjectUsage w) this) else 0)
     + Z.of_N payload)%Z
  ∧ counter (m_mostRecentStateObjectUsage w') this = payload
  ∧ (stateObjectType = Replace →
     (counter (m_mostRecentStateObjectUsage w) this ≤ counter (m_totalStateObjectUsage w) main)%N).
Proof.
  unfold payloadOf, requestedURL.
  run_history. repeat branch; intros; simplify_eq; try done.
  all: cbv zeta; split_and!; try done; counters; try done; lia.
Qed.

(** X14. What a successful [pushState] or [replaceState] does, for a frame
    whose page has a main-frame [History]: it is charged twice the length
    of the full URL plus the wire bytes of the state object; the charge
    becomes the object's most recent usage and is added to the main
    object's total, a replace first giving back the object's previous
    charge; no other object's counters change; and the calls that go out
    are the URL update, unless the URL string was null or empty, then the
    push or replace on the loader and the notification of the client. *)
Theorem stateObjectAdded_success this frame now data urlString stateObjectType w f p main :
  let out := (stateObjectAdded this frame now data urlString stateObjectType w).1 in
  let w' := (stateObjectAdded this frame now data urlString stateObjectType w).2 in
  frame = Some f → page f = Some p → mainFrame_history p = Some main →
  out = Returned (inr tt) →
  let fullURL := requestedURL f urlString in
  let payload := payloadOf fullURL data in
  Z.of_N (counter (m_totalStateObjectUsage w') main) =
    (Z.of_N (counter (m_totalStateObjectUsage w) main)
     - (if stateObjectType is Replace
        then Z.of_N (counter (m_mostRecentStateObjectUsage w) this) else 0)
     + Z.of_N payload)%Z
  ∧ counter (m_mostRecentStateObjectUsage w') this = payload
  ∧ (∀ h, h ≠ main → m_totalStateObjectUsage w' !! h = m_totalStateObjectUsage w !! h)
  ∧ (∀ h, h ≠ this →
       m_mostRecentStateObjectUsage w' !! h = m_mostRecentStateObjectUsage w !! h)
  ∧ events w' =
      events w
      ++ (if isEmpty urlString then [] else [updateURLForPushOrReplaceState fullURL])
      ++ match stateObjectType with
         | Push => [pushState data (string_ fullURL); dispatchDidPushStateWithinPage]
         | Replace => [replaceState data (string_ fullURL); dispatchDidReplaceStateWithinPage]
         end.
Proof.
  intros out w' Hframe Hpage Hmain Hout fullURL payload.
  destruct (stateObjectAdded_charges this frame now data urlString stateObjectType w f p main
              Hframe Hpage Hmain Hout) as (Htotal & Hrecent & _).
  split_and!; [exact Htotal | exact Hrecent | | |].
  all: revert Hout; subst out w' fullURL payload; clear Htotal Hrecent.
  all: revert Hframe Hpage Hmain; unfold requestedURL.
  all: run_history; repeat branch; intros; simplify_eq; try done.
  all: rewrite ?lookup_insert_ne by done; try done.
  all: by rewrite <- ?app_assoc.
Qed.


(** X16. [stateObjectAdded] stops the process only in its checked
    arithmetic, hence only for a frame whose page has a main-frame
    [History] and after all its tests have passed: when the full URL has
    2^31 characters or more, when the charge does not fit 64 bits, when a
    replace finds the object's previous charge above the main object's
    total, or when the new total does not fit 64 bits. *)
Theorem stateObjectAdded_aborts_only_on_overflow this frame now data urlString
    stateObjectType w :
  (stateObjectAdded this frame now data urlString stateObjectType w).1 = Aborted →
  ∃ f p main,
    frame = Some f ∧ page f = Some p ∧ mainFrame_history p = Some main ∧
    let fullURL := requestedURL f urlString in
    let payload := payloadOf fullURL data in
    let total := counter (m_totalStateObjectUsage w) main in
    let recent := counter (m_mostRecentStateObjectUsage w) this in
    (2 ^ 31 ≤ N.of_nat (String.length (string_ fullURL)))%N
    ∨ (2 ^ 64 ≤ payload)%N
    ∨ (stateObjectType = Replace ∧ (total < recent)%N)
    ∨ (2 ^ 64 ≤ (if stateObjectType is Replace then total - recent else total) + payload)%N.
Proof.
  unfold payloadOf, requestedURL.
  run_history. repeat branch; intros; simplify_eq; try done.
  all: eexists _, _, _; split_and!; try done; cbv zeta.
  all: counters.
  all: try (left; lia).
  all: try (right; left; lia).
  all: try (right; right; left; split; [done|lia]).
  all: try (right; right; right; lia).
  all: match goal with
       | |- context [(?total < ?recent)%N] =>
           destruct (decide (total < recent)%N);
           [right; right; left; split; [done|lia] | right; right; right; lia]
       end.
Qed.

Lemma sumUsage_insert_fresh (m : gmap nat N) object value :
  m !! object = None → sumUsage (<[object := value]> m) = (value + sumUsage m)%N.
Proof.
  intros Hfresh. unfold sumUsage.
  rewrite map_fold_insert_L; [done | intros; lia | done].
Qed.

Lemma sumUsage_insert (m : gmap nat N) object value :
  (sumUsage (<[object := value]> m) + counter m object = sumUsage m + value)%N.
Proof.
  unfold counter. destruct (m !! object) as [old|] eqn:Hold; cbn.
  - rewrite <- (insert_delete_id m object old Hold) at 2.
    rewrite <- (insert_delete_eq m object value).
    rewrite !sumUsage_insert_fresh by apply lookup_delete_eq. lia.
  - rewrite sumUsage_insert_fresh by done. lia.
Qed.

(** X17. No crash in normal operation.  Take the [History] objects of one
    page, the main object's total within the quota and at least the sum of
    the objects' most recent charges.  Then a call with a full URL shorter
    than 2^31 characters and a state object under 2^63 bytes does not stop
    the process, and whatever its outcome the total is again within the
    quota and at least the sum of the most recent charges. *)
Theorem stateObjectAdded_never_underflows this frame now data urlString stateObjectType w
    f p main :
  let out := (stateObjectAdded this frame now data urlString stateObjectType w).1 in
  let w' := (stateObjectAdded this frame now data urlString stateObjectType w).2 in
  frame = Some f → page f = Some p → mainFrame_history p = Some main →
  (sumUsage (m_mostRecentStateObjectUsage w) ≤ counter (m_totalStateObjectUsage w) main)%N →
  (counter (m_totalStateObjectUsage w) main ≤ 0x4000000)%N →
  (N.of_nat (String.length (string_ (requestedURL f urlString))) < 2 ^ 31)%N →
  (N.of_nat (List.length (default [] (wireBytes <$> data))) < 2 ^ 63)%N →
  out ≠ Aborted
  ∧ (sumUsage (m_mostRecentStateObjectUsage w') ≤ counter (m_totalStateObjectUsage w') main)%N
  ∧ (counter (m_totalStateObjectUsage w') main ≤ 0x4000000)%N.
Proof.
  unfold requestedURL.
  run_history. repeat branch; intros; simplify_eq; try done.
  all: match goal with
       | |- context [sumUsage (<[?k := ?v]> ?m)] =>
           pose proof (sumUsage_insert m k v)
       | _ => idtac
       end.
  all: pose proof (sumUsage_insert (m_mostRecentStateObjectUsage w) this 0%N).
  all: counters; cbn in *.
  all: split_and!; try done; lia.
Qed.

(** X18. On a frame that has no page a [pushState] or [replaceState]
    reports success and does nothing: beyond dropping the object's cached
    state the world is as before, and no call goes out. *)
Theorem stateObjectAdded_without_page this frame f now data urlString stateObjectType w :
  frame = Some f →
  isFullyActive (document f) = true →
  page f = None →
  stateObjectAdded this frame now data urlString stateObjectType w =
    (Returned (inr tt), set_cachedState (delete this (m_cachedState w)) w).
Proof.
  intros -> Hactive Hpage. run_history. by rewrite Hactive, Hpage.
Qed.


End HistoryProperties.

(** ** The theorems at work on the sample platform *)

Lemma inactive_document_is_refused_witness :
  go (PF := Sample.platform) None 2 Sample.fresh_ =
    (Returned (inl documentNotFullyActive), Sample.fresh_)
  ∧ (stateObjectAdded (PF := Sample.platform) 1 None 0 None None Push Sample.fresh_).1 =
    Returned (inl documentNotFullyActive).
Proof.
  pose proof (inactive_document_is_refused (PF := Sample.platform) 1 None 0 None None Push
                Auto true 2 Sample.fresh_ eq_refl) as H.
  destruct H as (_ & _ & _ & _ & Hgo & _ & Hadded).
  split; [exact Hgo | by rewrite Hadded].
Defined.

Lemma scrollRestoration_round_trip_witness :
  scrollRestoration (PF := Sample.platform) (Some Sample.mainFrame)
    (setScrollRestoration (Some Sample.mainFrame) Manual Sample.visited).2
  = (Returned (inr Manual),
     (setScrollRestoration (Some Sample.mainFrame) Manual Sample.visited).2).
Proof.
  pose proof (scrollRestoration_round_trip (PF := Sample.platform) (Some Sample.mainFrame)
                Manual Sample.visited eq_refl) as H.
  cbv zeta in H. destruct H as (_ & Hread & _). exact Hread.
Defined.

Lemma back_and_forward_schedule_one_navigation_witness :
  events (back (PF := Sample.platform) (Some Sample.mainFrame) Sample.fresh_).2 =
    [scheduleHistoryNavigation (-1)].
Proof.
  pose proof (back_and_forward_schedule_one_navigation (PF := Sample.platform)
                (Some Sample.mainFrame) 0 Sample.fresh_ eq_refl) as H.
  destruct H as (Hback & _). by rewrite Hback.
Defined.

(** The hundred-and-first state object of a time span is refused. *)
Lemma stateObjectAdded_failure_is_clean_witness :
  (stateObjectAdded (PF := Sample.platform) 1 (Some Sample.mainFrame) 5 None (Some "next")
     Push Sample.busy).1 =
    Returned (inl (mkException SecurityError
      (Some "Attempt to use history.pushState() more than 100 times per 10 seconds")))
  ∧ events (stateObjectAdded (PF := Sample.platform) 1 (Some Sample.mainFrame) 5 None
              (Some "next") Push Sample.busy).2 = [].
Proof.
  assert (Hout : (stateObjectAdded (PF := Sample.platform) 1 (Some Sample.mainFrame) 5 None
                    (Some "next") Push Sample.busy).1 =
                 Returned (inl (mkException SecurityError
                   (Some "Attempt to use history.pushState() more than 100 times per 10 seconds"))))
    by (vm_compute; reflexivity).
  split; [exact Hout|].
  exact (proj1 (stateObjectAdded_failure_is_clean (PF := Sample.platform) 1
                  (Some Sample.mainFrame) 5 None (Some "next") Push Sample.busy _ Hout)).
Defined.

Lemma stateObjectAdded_success_witness :
  let w' := (stateObjectAdded (PF := Sample.platform) 2 (Some Sample.mainFrame) 5 None
               (Some "next") Push Sample.fresh_).2 in
  counter (m_mostRecentStateObjectUsage w') 2 = 48%N
  ∧ events w' =
      [updateURLForPushOrReplaceState (PF := Sample.platform) "https://example.org/next";
       pushState None "https://example.org/next";
       dispatchDidPushStateWithinPage].
Proof.
  pose proof (stateObjectAdded_success (PF := Sample.platform) 2 (Some Sample.mainFrame) 5 None
                (Some "next") Push Sample.fresh_ Sample.mainFrame (mkPage 3 (Some 1)) 1
                eq_refl eq_refl eq_refl) as H.
  cbv zeta in H. destruct (H ltac:(vm_compute; reflexivity)) as (_ & Hrecent & _ & _ & Hevents).
  split; [exact Hrecent | exact Hevents].
Defined.


(** A replace by an object charged more than the main object holds. *)
Lemma stateObjectAdded_aborts_only_on_overflow_witness :
  (stateObjectAdded (PF := Sample.platform) 2 (Some Sample.mainFrame) 5 None (Some "next")
     Replace Sample.overdrawn).1 = Aborted
  ∧ ∃ f p main,
      Some Sample.mainFrame = Some f ∧ page f = Some p ∧ mainFrame_history p = Some main.
Proof.
  assert (Hout : (stateObjectAdded (PF := Sample.platform) 2 (Some Sample.mainFrame) 5 None
                    (Some "next") Replace Sample.overdrawn).1 = Aborted)
    by (vm_compute; reflexivity).
  split; [exact Hout|].
  destruct (stateObjectAdded_aborts_only_on_overflow (PF := Sample.platform) 2
              (Some Sample.mainFrame) 5 None (Some "next") Replace Sample.overdrawn Hout)
    as (f & p & main & Hf & Hp & Hmain & _).
  by exists f, p, main.
Defined.

Lemma stateObjectAdded_never_underflows_witness :
  let out := (stateObjectAdded (PF := Sample.platform) 2 (Some Sample.mainFrame) 5 None
                (Some "next") Replace Sample.fresh_).1 in
  let w' := (stateObjectAdded (PF := Sample.platform) 2 (Some Sample.mainFrame) 5 None
               (Some "next") Replace Sample.fresh_).2 in
  out ≠ Aborted
  ∧ (sumUsage (m_mostRecentStateObjectUsage w') ≤ counter (m_totalStateObjectUsage w') 1)%N
  ∧ (counter (m_totalStateObjectUsage w') 1 ≤ 0x4000000)%N.
Proof.
  apply (stateObjectAdded_never_underflows (PF := Sample.platform) 2 (Some Sample.mainFrame) 5
           None (Some "next") Replace Sample.fresh_ Sample.mainFrame (mkPage 3 (Some 1)) 1);
    vm_compute; congruence.
Defined.

Lemma stateObjectAdded_without_page_witness :
  stateObjectAdded (PF := Sample.platform) 2 (Some Sample.detachedFrame) 5 None (Some "next")
    Push Sample.fresh_ = (Returned (inr tt), Sample.fresh_).
Proof.
  rewrite (stateObjectAdded_without_page (PF := Sample.platform) 2 (Some Sample.detachedFrame)
             Sample.detachedFrame 5 None (Some "next") Push Sample.fresh_ eq_refl eq_refl eq_refl).
  reflexivity.
Defined.


End DOMHistoryProperties.

(** ** The evaluation theorems at work *)

Lemma evaluate_bound_identifier_witness :
  evaluate 0 (mkExpression (IdentifierExpression "n") None) {["n" := 7]}
    = (Returned 7, mkEvalState (mkExpression (IdentifierExpression "n") (Some 7)) ["n"]).
Proof.
  apply (evaluate_bound_identifier 0 (mkExpression (IdentifierExpression "n") None)
           {["n" := 7]} "n" 7); reflexivity.
Defined.

(** A constant bound to the default and a constant that is missing. *)
Lemma evaluate_reads_own_entry_only_witness :
  evaluate 0 (mkExpression (IdentifierExpression "n") None) {["n" := 0; "m" := 5]}
    = evaluate 0 (mkExpression (IdentifierExpression "n") None) {["k" := 3]}.
Proof.
  apply (evaluate_reads_own_entry_only 0 (mkExpression (IdentifierExpression "n") None)
           {["n" := 0; "m" := 5]} {["k" := 3]}).
  intros identifier [= <-]. vm_compute. reflexivity.
Defined.
